(** * ProxyAPINode: speech endpoints and their provisioning pipeline

    A shallow embedding of [src/tts.js] (the synthesizer module followed by
    the server module with [setupPiper], [ensureVoskModelDownloaded],
    [downloadFile] and [runCommand]) and of [src/stt.js] (two definitions of
    the recognizer module), with the properties of the specification stated over
    it.

    JavaScript's asynchronous functions are embedded in a state-and-outcome
    monad over an explicit [world]: the file system, the module-level
    variables ([model], [ttsConfigs], the [require] cache) and the trace of
    externally visible events.  A computation ends in one of four ways:
    it returns, it throws, it terminates the process ([process.exit]) or it
    waits on a promise that never settles. *)

From Stdlib Require Import ZArith NArith Ascii String List Lia.
From stdpp Require Import base strings gmap list pretty.


Local Open Scope Z_scope.

(* ===================================================================== *)
(** ** Strings *)
(* ===================================================================== *)

(** File names, URLs, voice names and messages are [string]s.  Free text
    (the sentence to synthesize, a transcription) is a list of Unicode code
    points, which is what a [/u] regular expression and [trim] work on. *)
Definition ustring := list N.

Definition ustring_of_string (s : string) : ustring :=
  map N_of_ascii (list_ascii_of_string s).

(** [String.prototype.split] with a one-character separator. *)
Fixpoint split (sep : ascii) (s : string) : list string :=
  match s with
  | EmptyString => [EmptyString]
  | String c s' =>
      if Ascii.eqb c sep then EmptyString :: split sep s'
      else match split sep s' with
           | hd :: tl => String c hd :: tl
           | [] => [String c EmptyString]
           end
  end.

(** [String.prototype.toLowerCase], on the ASCII letters (voice names of the
    catalog are ASCII; the engine's Unicode case tables are not part of the
    repository). *)
Definition lower_ascii (c : ascii) : ascii :=
  let n := nat_of_ascii c in
  if (Nat.leb 65 n && Nat.leb n 90)%bool then ascii_of_nat (n + 32) else c.

Fixpoint toLowerCase (s : string) : string :=
  match s with
  | EmptyString => EmptyString
  | String c s' => String (lower_ascii c) (toLowerCase s')
  end.

(** ECMAScript [WhiteSpace] and [LineTerminator] code points, the ones
    [String.prototype.trim] removes at both ends. *)
Definition is_whitespace (c : N) : bool :=
  ((9 <=? c) && (c <=? 13) || (c =? 32) || (c =? 160) || (c =? 5760)
   || (8192 <=? c) && (c <=? 8202) || (c =? 8232) || (c =? 8233)
   || (c =? 8239) || (c =? 8287) || (c =? 12288) || (c =? 65279))%N%bool.

Fixpoint trimStart (t : ustring) : ustring :=
  match t with
  | c :: t' => if is_whitespace c then trimStart t' else t
  | [] => []
  end.

Definition trimEnd (t : ustring) : ustring := reverse (trimStart (reverse t)).

Definition trim (t : ustring) : ustring := trimEnd (trimStart t).

(** Truthiness of a string: every string but the empty one. *)
Definition truthy_string (s : string) : bool :=
  match s with EmptyString => false | _ => true end.

Definition truthy_text (t : ustring) : bool :=
  match t with [] => false | _ => true end.

(** [a || b] on strings. *)
Definition or_string (a b : string) : string :=
  if truthy_string a then a else b.

(** [path.join] of normalised relative segments. *)
Definition path_join (dir file : string) : string := dir +:+ "/" +:+ file.

(* ===================================================================== *)
(** ** Data model *)
(* ===================================================================== *)

(** A JavaScript [Error], identified by its message. *)
Record Error := mkError { message : string }.

(** One entry of the voice catalog [config/voice_dl.json]. *)
Record VoiceModel := {
  name : string;
  onnx : string;
  json : string
}.

(** The record [setupPiper] writes to [tts_configs/<voice>.json]. *)
Record TtsConfig := {
  provider : string;
  voice : string;
  language : string;
  pythonPath : string;
  modelPath : string;
  configPath : string
}.

(** What a JSON document of [tts_configs/] parses to: a falsy value
    ([null], [false], [0], the empty string) or a configuration object. *)
Inductive json_value :=
  | JFalsy
  | JConfig (c : TtsConfig).

Inductive file_data :=
  | Blob                          (* bytes that are not a JSON document *)
  | JsonDoc (j : json_value).

Inductive node :=
  | Dir
  | File (d : file_data).

(** The handle [new vosk.Model(path)] returns; [model_id] is the identity
    of the object. *)
Record ModelHandle := {
  model_path : string;
  model_id : nat
}.

(** The object [rec.finalResult()] returns. *)
Record Alternative := { alt_text : option ustring }.
Record FinalResult := { alternatives : option (list Alternative) }.

(** What [transcribeWithVosk] resolves with: the text, or [false]. *)
Inductive transcript :=
  | Transcript (t : ustring)
  | NoSpeech.

(** Externally visible events, in the order they happen. *)
Inductive event :=
  | EvLog (msg : string)
  | EvDownload (url dest : string)
  | EvExtract (zip dir : string)
  | EvUnlink (path : string)
  | EvChmod (path : string)
  | EvWriteFile (path : string)
  | EvSpawn (cmd : string) (args : list string) (stdin : option ustring)
  | EvModelNew (path : string)
  | EvRecognizerNew (m : ModelHandle)
  | EvRecognizerFree
  | EvUnhandledRejection (e : Error)
  | EvUncaughtException (e : Error).

(** Process state: the file system under the working directory (normalised
    relative paths), the module variables and the event trace. *)
Record world := {
  files : gmap string node;
  ttsConfigs : gmap string json_value;     (* tts.js: const ttsConfigs = {} *)
  require_cache : gmap string json_value;  (* modules loaded by require *)
  model : option ModelHandle;              (* stt.js: let model = null *)
  models_built : nat;
  uuids_drawn : nat;
  trace : list event
}.

Definition set_files (f : gmap string node → gmap string node) (w : world) : world :=
  {| files := f (files w); ttsConfigs := ttsConfigs w;
     require_cache := require_cache w; model := model w;
     models_built := models_built w; uuids_drawn := uuids_drawn w;
     trace := trace w |}.

Definition set_ttsConfigs (f : gmap string json_value → gmap string json_value)
    (w : world) : world :=
  {| files := files w; ttsConfigs := f (ttsConfigs w);
     require_cache := require_cache w; model := model w;
     models_built := models_built w; uuids_drawn := uuids_drawn w;
     trace := trace w |}.

Definition set_require_cache (f : gmap string json_value → gmap string json_value)
    (w : world) : world :=
  {| files := files w; ttsConfigs := ttsConfigs w;
     require_cache := f (require_cache w); model := model w;
     models_built := models_built w; uuids_drawn := uuids_drawn w;
     trace := trace w |}.

Definition set_model (h : ModelHandle) (w : world) : world :=
  {| files := files w; ttsConfigs := ttsConfigs w;
     require_cache := require_cache w; model := Some h;
     models_built := S (models_built w); uuids_drawn := uuids_drawn w;
     trace := trace w |}.

Definition draw_uuid (w : world) : world :=
  {| files := files w; ttsConfigs := ttsConfigs w;
     require_cache := require_cache w; model := model w;
     models_built := models_built w; uuids_drawn := S (uuids_drawn w);
     trace := trace w |}.

Definition emit (e : event) (w : world) : world :=
  {| files := files w; ttsConfigs := ttsConfigs w;
     require_cache := require_cache w; model := model w;
     models_built := models_built w; uuids_drawn := uuids_drawn w;
     trace := trace w ++ [e] |}.

(** The state without its trace: what "the same state" compares. *)
Definition forget_trace (w : world) : world :=
  {| files := files w; ttsConfigs := ttsConfigs w;
     require_cache := require_cache w; model := model w;
     models_built := models_built w; uuids_drawn := uuids_drawn w;
     trace := [] |}.

(* ===================================================================== *)
(** ** The monad of asynchronous code *)
(* ===================================================================== *)

Inductive result (A : Type) :=
  | Ok (a : A)          (* returned / the awaited promise fulfilled *)
  | Throw (e : Error)   (* threw / the awaited promise rejected *)
  | Exit (code : Z)     (* process.exit(code) *)
  | Hang.               (* awaits a promise that never settles *)
Arguments Ok {A} a.
Arguments Throw {A} e.
Arguments Exit {A} code.
Arguments Hang {A}.

Definition M (S A : Type) : Type := S → result A * S.

Definition ret {S A} (a : A) : M S A := fun s => (Ok a, s).

Definition bind {S A B} (m : M S A) (k : A → M S B) : M S B :=
  fun s =>
    match m s with
    | (Ok a, s') => k a s'
    | (Throw e, s') => (Throw e, s')
    | (Exit c, s') => (Exit c, s')
    | (Hang, s') => (Hang, s')
    end.

Declare Scope js_scope.
Delimit Scope js_scope with js.
Notation "'let*' x ':=' m 'in' k" := (bind m (fun x => k))
  (at level 10, x pattern, m at level 100, k at level 200) : js_scope.
Notation "m '>>' k" := (bind m (fun _ => k))
  (at level 100, k at level 200, right associativity) : js_scope.
Local Open Scope js_scope.

Definition throw {S A} (e : Error) : M S A := fun s => (Throw e, s).
Definition process_exit {S A} (code : Z) : M S A := fun s => (Exit code, s).
Definition gets {S A} (f : S → A) : M S A := fun s => (Ok (f s), s).
Definition modify {S} (f : S → S) : M S unit := fun s => (Ok tt, f s).

(** [await] on a promise that nothing will settle. *)
Definition never {S A} : M S A := fun s => (Hang, s).

(** [try { m } catch (e) { h e }]: only a throw is caught; a process exit
    and a wait that never ends are not. *)
Definition try_catch {S A} (m : M S A) (h : Error → M S A) : M S A :=
  fun s =>
    match m s with
    | (Throw e, s') => h e s'
    | r => r
    end.

(** [for (const x of xs) { body x }]. *)
Fixpoint for_of {S A} (xs : list A) (body : A → M S unit) : M S unit :=
  match xs with
  | [] => ret tt
  | x :: xs' => body x >> for_of xs' body
  end.

(** *** Promises built with [new Promise(executor)]

    The executor runs over the world paired with the promise's slot;
    [resolve] and [reject] fill the slot if it is still empty. *)
Inductive settled (R : Type) :=
  | Resolved (r : R)
  | Rejected (e : Error).
Arguments Resolved {R} r.
Arguments Rejected {R} e.

Definition P (R A : Type) : Type := M (world * option (settled R)) A.

Definition lift {R A} (m : M world A) : P R A :=
  fun '(w, slot) => let '(r, w') := m w in (r, (w', slot)).

Definition settle {R} (v : settled R) : P R unit :=
  modify (fun '(w, slot) =>
            (w, match slot with Some old => Some old | None => Some v end)).

Definition resolve {R} (r : R) : P R unit := settle (Resolved r).
Definition reject {R} (e : Error) : P R unit := settle (Rejected e).

Definition outcome_of_slot {R} (slot : option (settled R)) : result R :=
  match slot with
  | Some (Resolved r) => Ok r
  | Some (Rejected e) => Throw e
  | None => Hang
  end.

(** [await new Promise((resolve, reject) => { ... })]: an exception the
    executor throws rejects the promise. *)
Definition new_Promise {R} (executor : P R unit) : M world R :=
  fun w =>
    match executor (w, None) with
    | (Exit c, (w', _)) => (Exit c, w')
    | (Throw e, (w', None)) => (Throw e, w')
    | (_, (w', slot)) => (outcome_of_slot slot, w')
    end.

(** [await new Promise(async (resolve, reject) => { ... })]: the executor
    returns a promise of its own which nobody observes.  When its body
    throws, that inner promise rejects (an unhandled rejection; the handler
    installed at the end of the server module prints it) and the outer
    promise is left as it was. *)
Definition new_Promise_async {R} (executor : P R unit) : M world R :=
  fun w =>
    match executor (w, None) with
    | (Exit c, (w', _)) => (Exit c, w')
    | (Throw e, (w', slot)) =>
        (outcome_of_slot slot, emit (EvUnhandledRejection e) w')
    | (_, (w', slot)) => (outcome_of_slot slot, w')
    end.

Definition log (msg : string) : M world unit := modify (emit (EvLog msg)).

(* ===================================================================== *)
(** ** The environment *)
(* ===================================================================== *)

(** What the outside answers: the remote servers, the archive, the spawned
    programs, the audio stream and the recognizer, and the configuration
    files [config.js] and [config/voice_dl.json], which are read-only input. *)

Inductive http_outcome :=
  | HttpResponse (statusCode : Z) (pipe_error : option string)
      (* a response arrived; with status 200 its body is piped to the
         destination, failing with [pipe_error] when there is one *)
  | HttpError (msg : string).          (* the request emitted 'error' *)

Record unzip_outcome := {
  extracted : list (string * node);    (* entries written, files and folders *)
  unzip_error : option string
}.

Record cmd_outcome := {
  exit_code : Z;
  cmd_stdout : string;
  cmd_stderr : string;
  cmd_creates : list (string * node)   (* what the command leaves on disk *)
}.

(** What [spawn] gives [runCommand]: a child that runs and closes, or a
    program that cannot be started, for which the child emits ['error'] and
    no ['close']. *)
Inductive spawn_outcome :=
  | Started (out : cmd_outcome)
  | NotStarted (e : Error).

Inductive child_outcome :=
  | ChildClose (code : Z)              (* 'close' *)
  | ChildError (e : Error).            (* 'error' *)

Record stream_outcome := {
  chunks : list (list N);              (* 'data' events *)
  stream_error : option Error          (* 'error' instead of 'end' *)
}.

Record Env := {
  vaskmodel : string;                            (* config.vaskmodel *)
  VOICE_MODELS : list VoiceModel;                (* config/voice_dl.json *)
  platform : string;                             (* os.platform() *)
  dirname : string;                              (* __dirname *)
  path_resolve : string → string;                (* path.resolve *)
  randomUUID : nat → string;                     (* the n-th UUID drawn *)
  https_get : string → http_outcome;
  unzip : string → unzip_outcome;
  run : string → list string → spawn_outcome;
  piper : string → list string → ustring → child_outcome;
  read_stream : string → stream_outcome;
  finalResult : list (list N) → option FinalResult;
  emoji : N → bool       (* \p{Emoji_Presentation} or \p{Emoji} *)
}.

(* ===================================================================== *)
(** ** File-system primitives *)
(* ===================================================================== *)

(** [fs.access] / [fs.existsSync]: the path names a file or a folder. *)
Definition exists_path (p : string) (w : world) : bool :=
  bool_decide (is_Some (files w !! p)).

(** [fs.mkdir(p, { recursive: true })]. *)
Definition mkdir_p (p : string) : M world unit :=
  let* n := gets (fun w => files w !! p) in
  match n with
  | Some (File _) => throw (mkError ("EEXIST: file already exists, mkdir '" +:+ p +:+ "'"))
  | Some Dir => ret tt
  | None => modify (set_files (insert p Dir))
  end.

(** [fs.unlink(p)]. *)
Definition unlink (p : string) : M world unit :=
  let* n := gets (fun w => files w !! p) in
  match n with
  | Some (File _) => modify (fun w => emit (EvUnlink p) (set_files (delete p) w))
  | Some Dir => throw (mkError ("EISDIR: illegal operation on a directory, unlink '" +:+ p +:+ "'"))
  | None => throw (mkError ("ENOENT: no such file or directory, unlink '" +:+ p +:+ "'"))
  end.

(** [fs.readFile(p, "utf-8")]. *)
Definition readFile (p : string) : M world file_data :=
  let* n := gets (fun w => files w !! p) in
  match n with
  | Some (File d) => ret d
  | Some Dir => throw (mkError "EISDIR: illegal operation on a directory, read")
  | None => throw (mkError ("ENOENT: no such file or directory, open '" +:+ p +:+ "'"))
  end.

(** [fs.writeFile(p, data)]: creates or overwrites. *)
Definition writeFile (p : string) (d : file_data) : M world unit :=
  let* n := gets (fun w => files w !! p) in
  match n with
  | Some Dir => throw (mkError ("EISDIR: illegal operation on a directory, open '" +:+ p +:+ "'"))
  | _ => modify (fun w => emit (EvWriteFile p) (set_files (insert p (File d)) w))
  end.

(** [s.endsWith(suffix)] and [s.slice(0, -n)]. *)
Definition endsWith (suffix s : string) : bool :=
  let n := String.length s in
  let m := String.length suffix in
  (Nat.leb m n && String.eqb (substring (n - m) m s) suffix)%bool.

Definition slice_off_end (n : nat) (s : string) : string :=
  substring 0 (String.length s - n) s.

(** The part of [p] after [pre], when [p] starts with [pre]. *)
Fixpoint strip_prefix (pre p : string) : option string :=
  match pre, p with
  | EmptyString, _ => Some p
  | String a pre', String b p' =>
      if Ascii.eqb a b then strip_prefix pre' p' else None
  | String _ _, EmptyString => None
  end.

Fixpoint has_slash (s : string) : bool :=
  match s with
  | EmptyString => false
  | String c s' => (Ascii.eqb c "/" || has_slash s')%bool
  end.

(** [fs.readdir(dir)]: the names directly under [dir]. *)
Definition entries_of (dir : string) (fs : gmap string node) : list string :=
  omap (fun '(p, _) =>
          match strip_prefix (dir +:+ "/") p with
          | Some f => if has_slash f then None else Some f
          | None => None
          end) (map_to_list fs).

Definition readdir (dir : string) : M world (list string) :=
  let* n := gets (fun w => files w !! dir) in
  match n with
  | Some Dir => gets (fun w => entries_of dir (files w))
  | _ => throw (mkError ("ENOENT: no such file or directory, scandir '" +:+ dir +:+ "'"))
  end.

(* ===================================================================== *)
(** ** tts.js *)
(* ===================================================================== *)

Section Tts.
Variable E : Env.

(** [JSON.parse(configData)]. *)
Definition JSON_parse (d : file_data) : M world json_value :=
  match d with
  | JsonDoc j => ret j
  | Blob => throw (mkError "Unexpected token in JSON")
  end.

(** tts.js, lines 15-27: the body of the loop over the directory listing. *)
Definition loadTtsConfig_entry (file : string) : M world unit :=
  if endsWith ".json" file then
    let providerName := slice_off_end 5 file in
    let configPath := path_join "tts_configs" file in
    let* configData := readFile configPath in
    try_catch
      (let* parsed := JSON_parse configData in
       modify (set_ttsConfigs (insert providerName parsed)) >>
       log ("Loaded TTS config: " +:+ providerName))
      (fun error =>
         log ("Error parsing TTS config " +:+ file +:+ ": " +:+ message error))
  else ret tt.

(** tts.js, lines 11-31. *)
Definition loadTtsConfigs : M world unit :=
  try_catch
    (mkdir_p "tts_configs" >>
     let* files := readdir "tts_configs" in
     for_of files loadTtsConfig_entry)
    (fun error => log ("Error loading TTS configs: " +:+ message error)).

(** [require(`./tts_configs/${provider}.json`)]: a module already loaded
    comes from the cache; otherwise the file is read, parsed and cached.
    The module directory is the working directory. *)
Definition require_config (provider : string) : M world json_value :=
  let p := "tts_configs/" +:+ provider +:+ ".json" in
  let* cached := gets (fun w => require_cache w !! p) in
  match cached with
  | Some j => ret j
  | None =>
      let* n := gets (fun w => files w !! p) in
      match n with
      | Some (File (JsonDoc j)) =>
          modify (set_require_cache (insert p j)) >> ret j
      | Some (File Blob) =>
          throw (mkError ("./" +:+ p +:+ ": Unexpected token in JSON"))
      | _ => throw (mkError ("Cannot find module './" +:+ p +:+ "'"))
      end
  end.

(** [`uploads/${randomUUID()}.wav`]. *)
Definition fresh_upload_path : M world string :=
  let* n := gets uuids_drawn in
  modify draw_uuid >>
  ret ("uploads/" +:+ randomUUID E n +:+ ".wav").

(** tts.js, lines 34-73.  [None] for an argument left out; the result is
    the output path, or [None] for [null]. *)
Definition generateTts (text : ustring) (provider outputFile : option string)
    : M world (option string) :=
  let provider := default "en_US-amy-medium" provider in
  let* outputFile :=
    match outputFile with
    | Some f => ret f
    | None => fresh_upload_path
    end in
  let* configstt := require_config provider in
  match configstt with
  | JFalsy =>
      log ("No TTS config found for provider: " +:+ provider) >>
      ret None
  | JConfig configstt =>
      let voice := or_string provider "en_US-lessac-medium" in
      let modelPath :=
        path_resolve E
          (or_string (modelPath configstt) ("./piper/models/" +:+ voice +:+ ".onnx")) in
      new_Promise
        (let args := ["-m"; "piper"; "--model"; modelPath;
                      "--output_file"; outputFile] in
         lift (modify (emit (EvSpawn (pythonPath configstt) args
                                     (Some (text ++ [10%N]))))) >>
         match piper E (pythonPath configstt) args (text ++ [10%N]) with
         | ChildClose code =>
             if code =? 0 then resolve (Some outputFile)
             else reject (mkError ("Piper exited with code " +:+ pretty code))
         | ChildError e => reject e
         end)
  end.

(** tts.js, lines 75-77: every code point of the class
    [[\p{Emoji_Presentation}\p{Emoji}\u200d]] is deleted, then the result
    is trimmed. *)
Definition in_emoji_class (c : N) : bool := (emoji E c || (c =? 8205)%N)%bool.

Definition stripEmojis (t : ustring) : ustring :=
  trim (filter (fun c => in_emoji_class c = false) t).

(** tts.js, lines 79-94.  [voice] is [None] when the argument is
    [undefined]. *)
Definition synthesizeWithPiper (text : ustring) (voice : option string)
    : M world (option string) :=
  let* outputWav := fresh_upload_path in
  new_Promise_async
    (let cleanSentence := stripEmojis text in
     let* audioFileAi :=
       lift (generateTts cleanSentence
               (Some (or_string (default "" voice) "en_US-lessac-medium"))
               (Some outputWav)) in
     lift (log (default "null" audioFileAi)) >>
     resolve audioFileAi).

End Tts.

(* ===================================================================== *)
(** ** stt.js *)
(* ===================================================================== *)

Section Stt.
Variable E : Env.

(** [`./model/${config.vaskmodel}`], normalised. *)
Definition MODEL_PATH : string := "model/" +:+ vaskmodel E.

(** stt.js, lines 10-26 and, word for word the same, lines 73-89.
    [new vosk.Model] is the engine's constructor; it hands back a fresh
    handle. *)
Definition voskLoader : M world ModelHandle :=
  let* cached := gets model in
  match cached with
  | Some m => ret m
  | None =>
      let* present := gets (exists_path MODEL_PATH) in
      (if negb present then
         log ("Vosk model still not found after attempted download: " +:+ MODEL_PATH) >>
         process_exit 1
       else ret tt) >>
      let* n := gets models_built in
      let m := {| model_path := MODEL_PATH; model_id := n |} in
      modify (fun w => emit (EvModelNew MODEL_PATH) (set_model m w)) >>
      log "Vosk model loaded." >>
      ret m
  end.

(** [new vosk.Recognizer({ model, sampleRate: 16000 })] and [rec.free()]. *)
Definition new_Recognizer (m : ModelHandle) : M world unit :=
  modify (emit (EvRecognizerNew m)).

Definition rec_free : M world unit := modify (emit EvRecognizerFree).

(** [finalResult?.alternatives?.[0]?.text?.trim() ?? ""]. *)
Definition top_text (finalResult : option FinalResult) : ustring :=
  match finalResult with
  | None => []
  | Some r =>
      match alternatives r with
      | Some (first :: _) =>
          match alt_text first with
          | Some t => trim t
          | None => []
          end
      | _ => []
      end
  end.

End Stt.

(** The first definition of the module, stt.js lines 1-63. *)
Module SttV1.
Section WithEnv.
Variable E : Env.

Definition transcribeWithVosk (filePath : string) : M world transcript :=
  new_Promise_async
    (let wfReader := read_stream E filePath in
     let* model := lift (voskLoader E) in
     lift (new_Recognizer model) >>
     let* resultText :=
       lift (new_Promise
               (match stream_error wfReader with
                | None =>
                    let finalResult := finalResult E (chunks wfReader) in
                    lift rec_free >>
                    resolve finalResult
                | Some err =>
                    lift rec_free >>
                    reject err
                end)) in
     lift (log "(final result)") >>
     match resultText with
     | None =>
         throw (mkError "Cannot read properties of null (reading 'alternatives')")
     | Some resultText =>
         match alternatives resultText with
         | None => ret tt
         | Some [] =>
             throw (mkError "Cannot read properties of undefined (reading 'text')")
         | Some (first :: _) =>
             match alt_text first with
             | Some t => if truthy_text t then resolve (Transcript t) else ret tt
             | None => ret tt
             end
         end
     end).

End WithEnv.
End SttV1.

(** The second definition of the module, stt.js lines 64-132.  The
    stream's handlers run after the executor's own [try] block has been
    left. *)
Module SttV2.
Section WithEnv.
Variable E : Env.

Definition transcribeWithVosk (filePath : string) : M world transcript :=
  new_Promise_async
    (let* wfReader :=
       try_catch
         (let wfReader := read_stream E filePath in
          let* model := lift (voskLoader E) in
          lift (new_Recognizer model) >>
          ret (Some wfReader))
         (fun err => reject err >> ret None) in
     match wfReader with
     | None => ret tt
     | Some wfReader =>
         match stream_error wfReader with
         | None =>
             try_catch
               (let finalResult := finalResult E (chunks wfReader) in
                lift rec_free >>
                let text := top_text finalResult in
                if truthy_text text then resolve (Transcript text)
                else resolve NoSpeech)
               (fun err => lift rec_free >> reject err)
         | Some err => lift rec_free >> reject err
         end
     end).

End WithEnv.
End SttV2.


(* ===================================================================== *)
(** ** The server module (second part of src/tts.js) *)
(* ===================================================================== *)

Definition PIPER_DIR : string := "piper".
Definition MODELS_DIR : string := path_join PIPER_DIR "models".
Definition EXTRACT_PATH : string := "model".

(** Lines 157-170. *)
Definition LANGUAGE_MAP : gmap string string :=
  list_to_map
    [("de_DE", "German (Germany)");
     ("en_US", "English (United States)");
     ("en_GB", "English (United Kingdom)");
     ("es_ES", "Spanish (Spain)");
     ("fr_FR", "French (France)");
     ("sv_SE", "Swedish (Sweden)");
     ("nl_NL", "Dutch (Netherlands)");
     ("da_DK", "Danish (Denmark)");
     ("it_IT", "Italian (Italy)");
     ("ru_RU", "Russian (Russia)");
     ("pt_BR", "Portuguese (Brazil)");
     ("pl_PL", "Polish (Poland)")].

(** [path.dirname]. *)
Fixpoint before_last_slash (p : string) : option string :=
  match p with
  | EmptyString => None
  | String c p' =>
      match before_last_slash p' with
      | Some d => Some (String c d)
      | None => if Ascii.eqb c "/" then Some EmptyString else None
      end
  end.

Definition path_dirname (p : string) : string :=
  match before_last_slash p with
  | Some EmptyString => "/"
  | Some d => d
  | None => "."
  end.

(** Lines 387-398: the configuration record of one catalog entry.  [None]
    where [model.name.split('-')[1]] is [undefined] and the next [.split]
    throws a [TypeError]. *)
Definition provider_of (name : string) : option string :=
  let langCode := hd EmptyString (split "-" name) in
  match split "-" name !! 1%nat with
  | Some second =>
      Some (toLowerCase langCode +:+ "_" +:+ hd EmptyString (split "-" second))
  | None => None
  end.

Definition config_of (pythonExe : string) (m : VoiceModel) : option TtsConfig :=
  let langCode := hd EmptyString (split "-" (name m)) in
  match provider_of (name m) with
  | Some provider =>
      Some {| provider := provider;
              voice := name m;
              language := default "Unknown Language" (LANGUAGE_MAP !! langCode);
              pythonPath := pythonExe;
              modelPath := path_join MODELS_DIR (name m +:+ ".onnx");
              configPath := path_join MODELS_DIR (name m +:+ ".onnx.json") |}
  | None => None
  end.

Definition add_paths (ps : list (string * node)) (fs : gmap string node)
    : gmap string node :=
  foldl (fun acc '(p, n) => <[p := n]> acc) fs ps.

Section Server.
Variable E : Env.

Definition MODEL_URL : string :=
  "https://alphacephei.com/vosk/models/" +:+ vaskmodel E +:+ ".zip".
Definition ZIP_PATH : string := "model/" +:+ vaskmodel E +:+ ".zip".

(** Lines 173-181.  What the archive holds is the environment's; entries
    written before a failure stay on disk. *)
Definition extractZip (zipPath extractTo : string) : M world unit :=
  log ("Extracting " +:+ zipPath +:+ " to " +:+ extractTo) >>
  let* present := gets (exists_path zipPath) in
  (if present then ret tt
   else throw (mkError ("ENOENT: no such file or directory, open '" +:+ zipPath +:+ "'"))) >>
  modify (fun w => emit (EvExtract zipPath extractTo)
                     (set_files (add_paths (extracted (unzip E zipPath))) w)) >>
  match unzip_error (unzip E zipPath) with
  | Some msg => throw (mkError msg)
  | None => log "Extraction complete."
  end.

(** Lines 197-233 (the progress bar only writes to the terminal and is
    left out). *)
Definition downloadFile (url dest : string) : M world unit :=
  mkdir_p (path_dirname dest) >>
  let* n := gets (fun w => files w !! dest) in
  match n with
  | Some Dir => throw (mkError ("EISDIR: illegal operation on a directory, open '" +:+ dest +:+ "'"))
  | _ =>
      modify (set_files (insert dest (File Blob))) >>
      modify (emit (EvDownload url dest)) >>
      match https_get E url with
      | HttpResponse statusCode pipe_error =>
          if statusCode =? 404 then
            throw (mkError ("Download skipped due to 404: " +:+ url))
          else if negb (statusCode =? 200) then
            throw (mkError ("Failed to download " +:+ url +:+ ": Status " +:+ pretty statusCode))
          else
            match pipe_error with
            | None => ret tt
            | Some msg => throw (mkError ("Download error for " +:+ url +:+ ": " +:+ msg))
            end
      | HttpError msg =>
          throw (mkError ("Download error for " +:+ url +:+ ": " +:+ msg))
      end
  end.

(** Lines 236-243. *)
Definition fileExists (filePath : string) : M world bool :=
  gets (exists_path filePath).

(** Lines 245-259.  The promise settles on the child's ['close'].  For
    a program that cannot be started the child emits ['error'], which has no
    listener here: the exception goes to the [uncaughtException] handler
    installed at the end of the server module, which prints it, and the
    promise stays pending. *)
Definition runCommand (cmd : string) (args : list string)
    : M world (string * string) :=
  match run E cmd args with
  | Started out =>
      modify (fun w => emit (EvSpawn cmd args None)
                         (set_files (add_paths (cmd_creates out)) w)) >>
      if exit_code out =? 0 then ret (cmd_stdout out, cmd_stderr out)
      else throw (mkError ("Command failed (" +:+ pretty (exit_code out) +:+ "): "
                           +:+ or_string (cmd_stderr out) (cmd_stdout out)))
  | NotStarted e =>
      modify (emit (EvSpawn cmd args None)) >>
      modify (emit (EvUncaughtException e)) >>
      never
  end.

(** [await fs.access(p)]. *)
Definition access (p : string) : M world unit :=
  let* present := gets (exists_path p) in
  if present then ret tt
  else throw (mkError ("ENOENT: no such file or directory, access '" +:+ p +:+ "'")).

(** Lines 261-294: the body of the first [try] block (lines 265-270), the
    body of the second (lines 276-289), and the function. *)
Definition model_present_block : M world bool :=
  let modelDir := path_join EXTRACT_PATH "vosk-model-en-us-0.22" in
  access modelDir >>
  log "Model already exists, skipping download." >>
  let* model := voskLoader E in
  loadTtsConfigs >>
  ret true.

Definition download_block : M world unit :=
  downloadFile MODEL_URL ZIP_PATH >>
  extractZip ZIP_PATH EXTRACT_PATH >>
  unlink ZIP_PATH >>
  log "Model is ready." >>
  let* model := voskLoader E in
  loadTtsConfigs.

Definition ensureVoskModelDownloaded : M world unit :=
  let* returned := try_catch model_present_block (fun _ => ret false) in
  if returned : bool then ret tt
  else
    try_catch download_block
      (fun err => log ("Failed to set up Vosk model: " +:+ message err)).

(** Lines 299-346: the portable Python runtime. *)
Definition pythonExe : string :=
  let portablePythonDir := path_join (dirname E) "python-portable" in
  if String.eqb (platform E) "win32"
  then path_join portablePythonDir "python.exe"
  else path_join (path_join portablePythonDir "bin") "python3".

Definition installPython : M world unit :=
  let portablePythonDir := path_join (dirname E) "python-portable" in
  let* hasPortablePython := fileExists pythonExe in
  if negb hasPortablePython then
    log "Portable Python not found, downloading and extracting..." >>
    if String.eqb (platform E) "win32" then
      let minicondaUrl :=
        "https://repo.anaconda.com/miniconda/Miniconda3-latest-Windows-x86_64.exe" in
      let installerPath := path_join (dirname E) "miniconda_installer.exe" in
      downloadFile minicondaUrl installerPath >>
      runCommand installerPath
        ["/InstallationType=JustMe"; "/AddToPath=0"; "/RegisterPython=0"; "/S";
         "/D=" +:+ portablePythonDir] >>
      unlink installerPath >>
      log "Extracted portable Python for Windows."
    else if (String.eqb (platform E) "linux" || String.eqb (platform E) "darwin")%bool then
      let minicondaUrl :=
        if String.eqb (platform E) "linux"
        then "https://repo.anaconda.com/miniconda/Miniconda3-latest-Linux-x86_64.sh"
        else "https://repo.anaconda.com/miniconda/Miniconda3-latest-MacOSX-x86_64.sh" in
      let shPath := path_join (dirname E) "miniconda.sh" in
      downloadFile minicondaUrl shPath >>
      modify (emit (EvChmod shPath)) >>
      runCommand "bash" [shPath; "-b"; "-p"; portablePythonDir] >>
      unlink shPath >>
      log "Installed Miniconda portable Python."
    else throw (mkError ("Unsupported platform: " +:+ platform E))
  else ret tt.

(** Lines 349-365: the synthesis engine inside it. *)
Definition installPiper : M world unit :=
  let* piperInstalled :=
    try_catch
      (runCommand pythonExe ["-m"; "pip"; "install"; "--upgrade"; "pip"] >>
       runCommand pythonExe ["-m"; "pip"; "show"; "piper-tts"] >>
       ret true)
      (fun _ =>
         log "piper-tts not installed in portable Python. Installing..." >>
         runCommand pythonExe ["-m"; "pip"; "install"; "--upgrade"; "pip"] >>
         runCommand pythonExe ["-m"; "pip"; "install"; "piper-tts"] >>
         ret true) in
  (if negb piperInstalled then throw (mkError "Failed to install piper-tts")
   else ret tt) >>
  log "piper-tts is installed.".

(** Lines 371-383: one pass over the catalog, downloading what is missing. *)
Definition downloadVoice (model : VoiceModel) : M world unit :=
  let onnxPath := path_join MODELS_DIR (name model +:+ ".onnx") in
  let jsonPath := path_join MODELS_DIR (name model +:+ ".onnx.json") in
  let* haveOnnx := fileExists onnxPath in
  (if negb haveOnnx then
     log ("Downloading voice model " +:+ name model +:+ ".onnx...") >>
     downloadFile (onnx model) onnxPath
   else ret tt) >>
  let* haveJson := fileExists jsonPath in
  if negb haveJson then
    log ("Downloading voice model metadata " +:+ name model +:+ ".onnx.json...") >>
    downloadFile (json model) jsonPath
  else ret tt.

(** Lines 387-401: a second pass, writing one configuration file each. *)
Definition writeVoiceConfig (model : VoiceModel) : M world unit :=
  let configPath := path_join "tts_configs" (name model +:+ ".json") in
  match config_of pythonExe model with
  | None =>
      throw (mkError "Cannot read properties of undefined (reading 'split')")
  | Some config =>
      writeFile configPath (JsonDoc (JConfig config)) >>
      log ("Generated TTS config: " +:+ name model +:+ ".json")
  end.

(** Lines 297-411: the [try] block in three parts (the runtime and the
    engine, lines 299-368; the voice catalog, lines 371-403; the recognition
    model, line 404) and its [catch]. *)
Definition runtime_stages : M world unit :=
  installPython >>
  installPiper >>
  mkdir_p MODELS_DIR.

Definition voice_stages : M world unit :=
  for_of (VOICE_MODELS E) downloadVoice >>
  mkdir_p "tts_configs" >>
  for_of (VOICE_MODELS E) writeVoiceConfig >>
  log "Piper Python setup complete.".

Definition setupPiper : M world unit :=
  try_catch
    (runtime_stages >>
     voice_stages >>
     ensureVoskModelDownloaded)
    (fun error =>
       log ("Error setting up Piper TTS: " +:+ message error) >>
       process_exit 1).

End Server.

(* ===================================================================== *)
(** ** The two routes of the server module *)
(* ===================================================================== *)

(** What a handler does with [res]. *)
Inductive response :=
  | Status400 (error : string)        (* res.status(400).json({ error }) *)
  | Status500 (body : string)         (* res.status(500).send(body) *)
  | SendFile (path : string)          (* res.sendFile(path, callback) *)
  | Transcript200 (t : transcript).   (* res.json({ transcript }) *)

(** [fsnormal.remove(p)] of fs-extra: the file, or the folder with all it
    holds, is deleted; a path that does not exist is no error. *)
Definition remove (p : string) : M world unit :=
  modify (set_files
            (filter (fun kv => fst kv ≠ p ∧ strip_prefix (p +:+ "/") (fst kv) = None))).

Section Routes.
Variable E : Env.

(** Lines 413-423, over the [transcribeWithVosk] the module [./stt]
    exports.  [file] is [req.file]: the path where multer stored the upload,
    or [None] for a request without an [audio] part.  The handler reads
    [req.file.path] before its [try] block; without a file that read throws,
    the promise of the handler rejects with nobody to catch it, and the
    request is never answered. *)
Definition stt_route (transcribeWithVosk : string → M world transcript)
    (file : option string) : M world response :=
  match file with
  | None =>
      modify (emit (EvUnhandledRejection
                      (mkError "Cannot read properties of undefined (reading 'path')"))) >>
      never
  | Some filePath =>
      try_catch
        (let* text := transcribeWithVosk filePath in
         remove filePath >>
         ret (Transcript200 text))
        (fun err =>
           log (message err) >>
           ret (Status500 "STT error"))
  end.

(** Lines 425-437; [text] and [voice] are the two fields of the JSON body,
    [None] when the field is missing.  The callback of [res.sendFile]
    removes the file once the transfer has ended. *)
Definition tts_route (text : option ustring) (voice : option string)
    : M world response :=
  if (negb (truthy_text (default [] text))
      || negb (truthy_string (default "" voice)))%bool
  then ret (Status400 "Missing text or voice")
  else
    try_catch
      (let* wavPath := synthesizeWithPiper E (default [] text) voice in
       log (default "null" wavPath) >>
       match wavPath with
       | None =>
           throw (mkError "The paths[0] argument must be of type string. Received null")
       | Some wavPath =>
           remove wavPath >>
           ret (SendFile (path_resolve E wavPath))
       end)
      (fun err =>
         log (message err) >>
         ret (Status500 "TTS error")).

End Routes.

(* ===================================================================== *)
(** ** A concrete environment for the examples *)
(* ===================================================================== *)

(** Rows of Unicode's emoji data used by the examples: the keycap bases
    [#], [*] and the digits, the copyright and registered signs, and the
    emoticons block U+1F600..U+1F64F. *)
Definition emoji_excerpt (c : N) : bool :=
  ((c =? 35) || (c =? 42) || (48 <=? c) && (c <=? 57) || (c =? 169)
   || (c =? 174) || (128512 <=? c) && (c <=? 128591))%N%bool.

Definition lessac : VoiceModel :=
  {| name := "en_US-lessac-medium";
     onnx := "https://voices.example/en_US-lessac-medium.onnx";
     json := "https://voices.example/en_US-lessac-medium.onnx.json" |}.

Definition alan : VoiceModel :=
  {| name := "en_GB-alan-medium";
     onnx := "https://voices.example/en_GB-alan-medium.onnx";
     json := "https://voices.example/en_GB-alan-medium.onnx.json" |}.

Definition thorsten : VoiceModel :=
  {| name := "de_DE-thorsten-medium";
     onnx := "https://voices.example/de_DE-thorsten-medium.onnx";
     json := "https://voices.example/de_DE-thorsten-medium.onnx.json" |}.

(** A Linux host where every command succeeds, the recognizer hears
    nothing, the engine exits with [engine_code] and the URLs in [missing]
    answer 404. *)
Definition demo_env (engine_code : Z) (missing : list string) : Env :=
  {| vaskmodel := "vosk-model-en-us-0.22";
     VOICE_MODELS := [lessac; alan; thorsten];
     platform := "linux";
     dirname := "/srv/app";
     path_resolve := fun p => "/srv/app/" +:+ p;
     randomUUID := fun n => "uuid-" +:+ pretty n;
     https_get := fun url =>
       if bool_decide (url ∈ missing) then HttpResponse 404 None
       else HttpResponse 200 None;
     unzip := fun _ =>
       {| extracted := [("model/vosk-model-en-us-0.22", Dir)];
          unzip_error := None |};
     run := fun _ _ =>
       Started {| exit_code := 0; cmd_stdout := ""; cmd_stderr := "";
                  cmd_creates := [] |};
     piper := fun _ _ _ => ChildClose engine_code;
     read_stream := fun _ => {| chunks := []; stream_error := None |};
     finalResult := fun _ =>
       Some {| alternatives := Some [ {| alt_text := Some [] |} ] |};
     emoji := emoji_excerpt |}.

Definition empty_world : world :=
  {| files := ∅; ttsConfigs := ∅; require_cache := ∅; model := None;
     models_built := 0; uuids_drawn := 0; trace := [] |}.

Definition lessac_config : TtsConfig :=
  {| provider := "en_us_lessac";
     voice := "en_US-lessac-medium";
     language := "English (United States)";
     pythonPath := "/srv/app/python-portable/bin/python3";
     modelPath := "piper/models/en_US-lessac-medium.onnx";
     configPath := "piper/models/en_US-lessac-medium.onnx.json" |}.

(** A provisioned host: the default voice's configuration file and the
    recognition model folder are on disk. *)
Definition provisioned_world : world :=
  set_files (fun _ =>
    <["tts_configs" := Dir]>
    (<["tts_configs/en_US-lessac-medium.json" := File (JsonDoc (JConfig lessac_config))]>
    (<["model" := Dir]>
    (<["model/vosk-model-en-us-0.22" := Dir]> ∅)))) empty_world.

(* ===================================================================== *)
(** ** Vocabulary of the properties *)
(* ===================================================================== *)

Fixpoint has_dash (s : string) : bool :=
  match s with
  | EmptyString => false
  | String c s' => (Ascii.eqb c "-" || has_dash s')%bool
  end.

(** Where [setupPiper] keeps the configuration of a voice. *)
Definition config_file (voice : string) : string :=
  "tts_configs/" +:+ voice +:+ ".json".

(** [require] finds the configuration object [cfg] for [voice]. *)
Definition config_available (voice : string) (cfg : TtsConfig) (w : world) : Prop :=
  require_cache w !! config_file voice = Some (JConfig cfg)
  ∨ (require_cache w !! config_file voice = None
     ∧ files w !! config_file voice = Some (File (JsonDoc (JConfig cfg)))).

(** Kinds of events. *)
Definition is_download (e : event) : bool :=
  match e with EvDownload _ _ => true | _ => false end.
Definition is_extract (e : event) : bool :=
  match e with EvExtract _ _ => true | _ => false end.
Definition is_unlink (e : event) : bool :=
  match e with EvUnlink _ => true | _ => false end.
Definition is_write (e : event) : bool :=
  match e with EvWriteFile _ => true | _ => false end.
Definition is_spawn (e : event) : bool :=
  match e with EvSpawn _ _ _ => true | _ => false end.

(** The folder whose presence [ensureVoskModelDownloaded] tests. *)
Definition modelDir : string := path_join EXTRACT_PATH "vosk-model-en-us-0.22".

(** The command line [generateTts] spawns for a voice and an output file. *)
Definition piper_args (E : Env) (cfg : TtsConfig) (voice out : string) : list string :=
  ["-m"; "piper"; "--model";
   path_resolve E (or_string (modelPath cfg) ("./piper/models/" +:+ voice +:+ ".onnx"));
   "--output_file"; out].

(** The voice [synthesizeWithPiper] passes on: [voice || "en_US-lessac-medium"]. *)
Definition effective_voice (voice : option string) : string :=
  or_string (default "" voice) "en_US-lessac-medium".

(** The output path of a call made in [w]. *)
Definition next_upload (E : Env) (w : world) : string :=
  "uploads/" +:+ randomUUID E (uuids_drawn w) +:+ ".wav".


Definition whitespace (c : N) : Prop := is_whitespace c = true.

(** What the engine's end means for the promise of [generateTts]. *)
Definition engine_verdict (out : string) (o : child_outcome) : result (option string) :=
  match o with
  | ChildClose code =>
      if code =? 0 then Ok (Some out)
      else Throw (mkError ("Piper exited with code " +:+ pretty code))
  | ChildError e => Throw e
  end.

(** ... and for the promise [synthesizeWithPiper] returns, whose [reject]
    is never called. *)
Definition caller_verdict (out : string) (o : child_outcome) : result (option string) :=
  match o with
  | ChildClose code => if code =? 0 then Ok (Some out) else Hang
  | ChildError e => Hang
  end.

(** *** Relating the state before a computation to the state after it *)

(** [steps R m]: whatever [m] does and however it ends, the state it leaves
    is [R]-related to the state it started in. *)
Definition steps {S A : Type} (R : relation S) (m : M S A) : Prop :=
  ∀ s, R s (snd (m s)).

(** A relation on worlds, read on the executor's state of a promise. *)
Definition on_world {X : Type} (R : relation world) : relation (world * X) :=
  fun a b => R (fst a) (fst b).

(** Only events outside the kind [f] were appended. *)
Definition quiet (f : event → bool) : relation world :=
  fun w w' => ∃ evs, trace w' = trace w ++ evs ∧ Forall (fun e => f e = false) evs.

(** A loaded model stays the same object and nothing is built again; from
    an unloaded state at most one model is built. *)
Definition model_kept : relation world :=
  fun w w' =>
    match model w with
    | Some h => model w' = Some h ∧ models_built w' = models_built w
    | None =>
        (model w' = None ∧ models_built w' = models_built w)
        ∨ (∃ h, model w' = Some h ∧ models_built w' = Datatypes.S (models_built w))
    end.

(** A call a client of the modules can make, and a sequence of calls in one
    process lifetime: a call that throws or never settles does not stop the
    calls after it, a call that exits the process does. *)
Inductive call :=
  | CallVoskLoader
  | CallTranscribeV1 (filePath : string)
  | CallTranscribeV2 (filePath : string)
  | CallSynthesize (t : ustring) (voice : option string)
  | CallLoadTtsConfigs
  | CallEnsureVoskModelDownloaded
  | CallSetupPiper.

Definition perform (E : Env) (c : call) : M world unit :=
  match c with
  | CallVoskLoader => voskLoader E >> ret tt
  | CallTranscribeV1 f => SttV1.transcribeWithVosk E f >> ret tt
  | CallTranscribeV2 f => SttV2.transcribeWithVosk E f >> ret tt
  | CallSynthesize t voice => synthesizeWithPiper E t voice >> ret tt
  | CallLoadTtsConfigs => loadTtsConfigs
  | CallEnsureVoskModelDownloaded => ensureVoskModelDownloaded E
  | CallSetupPiper => setupPiper E
  end.

Fixpoint run_calls (E : Env) (cs : list call) (w : world) : world :=
  match cs with
  | [] => w
  | c :: cs' =>
      match perform E c w with
      | (Exit _, w') => w'
      | (_, w') => run_calls E cs' w'
      end
  end.

Definition all_events : event → Prop := fun _ => True.

(** Downloads, extractions and deletions. *)
Definition is_transfer_or_cleanup (e : event) : bool :=
  (is_download e || is_extract e || is_unlink e)%bool.

(** At most [n] events of the kind [f] were appended. *)
Fixpoint count_events (f : event → bool) (evs : list event) : nat :=
  match evs with
  | [] => 0
  | e :: evs' => ((if f e then 1 else 0) + count_events f evs')%nat
  end.

Definition at_most (f : event → bool) (n : nat) : relation world :=
  fun w w' => ∃ evs, trace w' = trace w ++ evs ∧ (count_events f evs ≤ n)%nat.

(** *** What [loadTtsConfigs] amounts to *)

(** The assignments [ttsConfigs[providerName] = ...] the loop makes over the
    directory listing [l]; it ends at the first [.json] entry that cannot be
    read. *)
Fixpoint load_ops (F : gmap string node) (l : list string)
    : list (string * json_value) :=
  match l with
  | [] => []
  | file :: l' =>
      if endsWith ".json" file then
        match F !! path_join "tts_configs" file with
        | Some (File (JsonDoc j)) => (slice_off_end 5 file, j) :: load_ops F l'
        | Some (File Blob) => load_ops F l'
        | _ => []
        end
      else load_ops F l'
  end.

Definition apply_ops (ops : list (string * json_value))
    (T : gmap string json_value) : gmap string json_value :=
  foldl (fun acc '(k, v) => <[k := v]> acc) T ops.

Definition with_config_dir (F : gmap string node) : gmap string node :=
  match F !! "tts_configs" with
  | None => <["tts_configs" := Dir]> F
  | Some _ => F
  end.

(** The state [loadTtsConfigs] leaves, trace apart. *)
Definition loaded (w : world) : world :=
  match files w !! "tts_configs" with
  | Some (File _) => w
  | _ =>
      let F1 := with_config_dir (files w) in
      set_ttsConfigs (apply_ops (load_ops F1 (entries_of "tts_configs" F1)))
        (set_files (fun _ => F1) w)
  end.

(** One of the two [try] blocks of [ensureVoskModelDownloaded] ran to its
    end from [w], leaving [w1]: the call succeeded. *)
Definition provisioned_by (E : Env) (w w1 : world) : Prop :=
  model_present_block E w = (Ok true, w1) ∨ download_block E w = (Ok tt, w1).

(** *** The specification's wording, for the claims the code departs from *)

(** C1 as worded: every catalog entry whose two files download gets its
    configuration written, whatever happens to the others. *)
Definition isolates_voice_failures (E : Env) (w : world) : Prop :=
  ∀ m, m ∈ VOICE_MODELS E →
       https_get E (onnx m) = HttpResponse 200 None →
       https_get E (json m) = HttpResponse 200 None →
       ∃ c, files (snd (setupPiper E w)) !! config_file (name m)
            = Some (File (JsonDoc (JConfig c))).

(** C2 as worded: a failed download or extraction ends the process with a
    non-zero status. *)
Definition model_failure_is_fatal (E : Env) (w : world) : Prop :=
  ∀ e w',
    bind (downloadFile E (MODEL_URL E) (ZIP_PATH E))
         (fun _ => extractZip E (ZIP_PATH E) EXTRACT_PATH) w = (Throw e, w') →
    ∃ code, code ≠ 0 ∧ fst (ensureVoskModelDownloaded E w) = Exit code.

(** The events outside the kind [f]. *)
Definition outside (f : event → bool) : event → Prop := fun e => f e = false.

(** The model variable and the count of models built are as they were. *)
Definition model_untouched : relation world :=
  fun w w' => model w' = model w ∧ models_built w' = models_built w.

(** *** Vocabulary of the further properties *)

(** What the audio stream and the recognizer decide for the second
    definition of [transcribeWithVosk], once the model is loaded. *)
Definition stream_verdict (E : Env) (filePath : string) : result transcript :=
  match stream_error (read_stream E filePath) with
  | Some err => Throw err
  | None =>
      let text := top_text (finalResult E (chunks (read_stream E filePath))) in
      if truthy_text text then Ok (Transcript text) else Ok NoSpeech
  end.

Definition is_rec_new (e : event) : bool :=
  match e with EvRecognizerNew _ => true | _ => false end.
Definition is_rec_free (e : event) : bool :=
  match e with EvRecognizerFree => true | _ => false end.

(** Downloads written to [dest]. *)
Definition is_download_to (dest : string) (e : event) : bool :=
  match e with EvDownload _ d => String.eqb d dest | _ => false end.

(** Where the two files of a voice and its configuration are kept. *)
Definition onnxPath (m : VoiceModel) : string :=
  path_join MODELS_DIR (name m +:+ ".onnx").
Definition jsonPath (m : VoiceModel) : string :=
  path_join MODELS_DIR (name m +:+ ".onnx.json").
Definition voiceConfigPath (m : VoiceModel) : string :=
  path_join "tts_configs" (name m +:+ ".json").

(** The counter of drawn UUIDs never goes back. *)
Definition uuids_grow : relation world :=
  fun w w' => (uuids_drawn w ≤ uuids_drawn w')%nat.



(** [demo_env] with a recognizer that hears [heard] and an audio stream
    that fails on the paths in [unreadable]. *)
Definition hearing_env (heard : ustring) (unreadable : list string) : Env :=
  {| vaskmodel := vaskmodel (demo_env 0 []);
     VOICE_MODELS := VOICE_MODELS (demo_env 0 []);
     platform := platform (demo_env 0 []);
     dirname := dirname (demo_env 0 []);
     path_resolve := path_resolve (demo_env 0 []);
     randomUUID := randomUUID (demo_env 0 []);
     https_get := https_get (demo_env 0 []);
     unzip := unzip (demo_env 0 []);
     run := run (demo_env 0 []);
     piper := piper (demo_env 0 []);
     read_stream := fun p =>
       {| chunks := [];
          stream_error :=
            if bool_decide (p ∈ unreadable)
            then Some (mkError "EIO: i/o error, read") else None |};
     finalResult := fun _ =>
       Some {| alternatives := Some [ {| alt_text := Some heard |} ] |};
     emoji := emoji_excerpt |}.

(** A host of another kind, with nothing installed. *)
Definition freebsd_env : Env :=
  {| vaskmodel := vaskmodel (demo_env 0 []);
     VOICE_MODELS := VOICE_MODELS (demo_env 0 []);
     platform := "freebsd";
     dirname := dirname (demo_env 0 []);
     path_resolve := path_resolve (demo_env 0 []);
     randomUUID := randomUUID (demo_env 0 []);
     https_get := https_get (demo_env 0 []);
     unzip := unzip (demo_env 0 []);
     run := run (demo_env 0 []);
     piper := piper (demo_env 0 []);
     read_stream := read_stream (demo_env 0 []);
     finalResult := finalResult (demo_env 0 []);
     emoji := emoji_excerpt |}.

(** [demo_env] with an archive that breaks off after its first folder. *)
Definition broken_archive_env : Env :=
  {| vaskmodel := vaskmodel (demo_env 0 []);
     VOICE_MODELS := VOICE_MODELS (demo_env 0 []);
     platform := platform (demo_env 0 []);
     dirname := dirname (demo_env 0 []);
     path_resolve := path_resolve (demo_env 0 []);
     randomUUID := randomUUID (demo_env 0 []);
     https_get := https_get (demo_env 0 []);
     unzip := fun _ =>
       {| extracted := [("model/vosk-model-en-us-0.22/am", Dir)];
          unzip_error := Some "invalid signature" |};
     run := run (demo_env 0 []);
     piper := piper (demo_env 0 []);
     read_stream := read_stream (demo_env 0 []);
     finalResult := finalResult (demo_env 0 []);
     emoji := emoji_excerpt |}.

(** How [downloadFile] ends once the request has been sent. *)
Definition download_verdict (E : Env) (url : string) : result unit :=
  match https_get E url with
  | HttpResponse statusCode pipe_error =>
      if statusCode =? 404 then
        Throw (mkError ("Download skipped due to 404: " +:+ url))
      else if negb (statusCode =? 200) then
        Throw (mkError ("Failed to download " +:+ url +:+ ": Status "
                        +:+ pretty statusCode))
      else
        match pipe_error with
        | None => Ok tt
        | Some msg => Throw (mkError ("Download error for " +:+ url +:+ ": " +:+ msg))
        end
  | HttpError msg => Throw (mkError ("Download error for " +:+ url +:+ ": " +:+ msg))
  end.

(** Events that reach for the network or undo what was fetched. *)
Definition is_fetch (e : event) : bool :=
  (is_download e || is_extract e || is_unlink e)%bool.

(** Every path that was there is still there. *)
Definition files_grow : relation world :=
  fun w w' => ∀ p, exists_path p w = true → exists_path p w' = true.

(** Nothing is fetched and nothing is taken away. *)
Definition offline : relation world :=
  fun w w' => files_grow w w' ∧ quiet is_fetch w w'.

(** The host [setupPiper] leaves behind on a first start, with the portable
    runtime its installer unpacks. *)
Definition installed_world : world :=
  set_files (insert "/srv/app/python-portable/bin/python3" (File Blob))
    (snd (setupPiper (demo_env 0 []) empty_world)).

(** A configuration folder with one good file and two that do not parse. *)
Definition mixed_configs_world : world :=
  set_files (fun _ =>
    <["tts_configs" := Dir]>
    (<["tts_configs/a-broken.json" := File Blob]>
    (<["tts_configs/en_US-lessac-medium.json" := File (JsonDoc (JConfig lessac_config))]>
    (<["tts_configs/z-broken.json" := File Blob]> ∅)))) empty_world.

(** A Unicode scalar value: a code point that is not a surrogate.  A
    JavaScript string without lone surrogates is, read code point by code
    point, a list of scalar values, and every such list is read back from
    its string as itself. *)
Definition scalar_value (c : N) : bool :=
  ((c <? 55296) || ((57343 <? c) && (c <=? 1114111)))%N%bool.

Definition well_formed (t : ustring) : Prop :=
  Forall (fun c => scalar_value c = true) t.

(** A host configured for another recognition model than the one whose
    folder [ensureVoskModelDownloaded] tests for; its archive unpacks into a
    folder of its own name. *)
Definition small_model_env : Env :=
  {| vaskmodel := "vosk-model-small-en-us-0.15";
     VOICE_MODELS := VOICE_MODELS (demo_env 0 []);
     platform := platform (demo_env 0 []);
     dirname := dirname (demo_env 0 []);
     path_resolve := path_resolve (demo_env 0 []);
     randomUUID := randomUUID (demo_env 0 []);
     https_get := https_get (demo_env 0 []);
     unzip := fun _ =>
       {| extracted := [("model/vosk-model-small-en-us-0.15", Dir)];
          unzip_error := None |};
     run := run (demo_env 0 []);
     piper := piper (demo_env 0 []);
     read_stream := read_stream (demo_env 0 []);
     finalResult := finalResult (demo_env 0 []);
     emoji := emoji (demo_env 0 []) |}.

(** A sentence with an emoji in it and white space around it. *)
Definition greeting : ustring :=
  ustring_of_string " hi " ++ [128512%N] ++ ustring_of_string " there ".

(* ===================================================================== *)
(** * Properties *)
(* ===================================================================== *)

(** ** Voice names and the [provider] field *)

Lemma append_cons (c : ascii) (a b : string) :
  String c a +:+ b = String c (a +:+ b).
Proof. reflexivity. Qed.

Lemma append_assoc (a b c : string) : (a +:+ b) +:+ c = a +:+ (b +:+ c).
Proof.
  induction a as [|x a IH]; [done|].
  rewrite !append_cons. by rewrite IH.
Qed.

Lemma split_no_dash (s : string) :
  has_dash s = false → split "-" s = [s].
Proof.
  induction s as [|c s IH]; simpl; [done|].
  intros H. apply orb_false_iff in H as [Hc Hs].
  rewrite Hc, (IH Hs). done.
Qed.

Lemma split_at_dash (a b : string) :
  has_dash a = false → split "-" (a +:+ String "-" b) = a :: split "-" b.
Proof.
  induction a as [|c a IH]; [done|].
  rewrite append_cons. simpl.
  intros H. apply orb_false_iff in H as [Hc Ha].
  rewrite Hc, (IH Ha). done.
Qed.

Lemma has_dash_app (a b : string) :
  has_dash (a +:+ b) = (has_dash a || has_dash b)%bool.
Proof.
  induction a as [|c a IH]; [done|].
  rewrite append_cons. simpl. rewrite IH. by rewrite orb_assoc.
Qed.

Lemma toLowerCase_app (a b : string) :
  toLowerCase (a +:+ b) = toLowerCase a +:+ toLowerCase b.
Proof.
  induction a as [|c a IH]; [done|].
  rewrite append_cons. simpl. by rewrite IH, append_cons.
Qed.

Lemma provider_of_shape (lang region voice quality : string) :
  has_dash lang = false → has_dash region = false → has_dash voice = false →
  provider_of (lang +:+ "_" +:+ region +:+ "-" +:+ voice +:+ "-" +:+ quality)
  = Some (toLowerCase lang +:+ "_" +:+ toLowerCase region +:+ "_" +:+ voice).
Proof.
  intros Hl Hr Hv. unfold provider_of.
  assert (Hlr : has_dash (lang +:+ "_" +:+ region) = false).
  { rewrite !has_dash_app, Hl, Hr. done. }
  replace (lang +:+ "_" +:+ region +:+ "-" +:+ voice +:+ "-" +:+ quality)
    with ((lang +:+ "_" +:+ region) +:+ String "-" (voice +:+ String "-" quality))
    by (rewrite !append_assoc; done).
  rewrite (split_at_dash _ _ Hlr), (split_at_dash _ _ Hv). simpl.
  rewrite (split_no_dash _ Hv). simpl.
  rewrite !toLowerCase_app, !append_assoc. done.
Qed.

(** C5, as amended: for a catalog name of the shape
    [<lang>_<REGION>-<voice>-<quality>] the [provider] of the persisted
    record is the lower-cased [<lang>_<region>] followed by an underscore
    and the [<voice>] segment as it is written; ["en_US-lessac-medium"]
    gives ["en_us_lessac"]. *)
Theorem C5_provider_is_lang_region_voice
    (exe : string) (m : VoiceModel) (lang region voice quality : string) :
  name m = lang +:+ "_" +:+ region +:+ "-" +:+ voice +:+ "-" +:+ quality →
  has_dash lang = false → has_dash region = false → has_dash voice = false →
  ∃ c, config_of exe m = Some c
       ∧ provider c
         = toLowerCase lang +:+ "_" +:+ toLowerCase region +:+ "_" +:+ voice.
Proof.
  intros Hname Hl Hr Hv. unfold config_of.
  rewrite Hname, (provider_of_shape _ _ _ _ Hl Hr Hv).
  eexists. split; [reflexivity|]. done.
Qed.

Lemma C5_provider_witness :
  ∃ c, config_of "python3" lessac = Some c ∧ provider c = "en_us_lessac".
Proof.
  apply (C5_provider_is_lang_region_voice "python3" lessac "en" "US" "lessac" "medium");
    reflexivity.
Defined.

(** C5 as the specification words it fails on the default voice: the
    provider written for ["en_US-lessac-medium"] is not ["en_us"]. *)
Lemma C5_provider_counterexample :
  ¬ (∃ c, config_of "python3" lessac = Some c ∧ provider c = toLowerCase "en_US").
Proof. intros (c & Hc & Hp). vm_compute in Hc. inversion Hc; subst. discriminate Hp. Qed.

(** ** The cleaning step before synthesis *)

Lemma trimStart_spec (t : ustring) :
  ∃ pre, t = pre ++ trimStart t
         ∧ Forall whitespace pre
         ∧ ∀ c, head (trimStart t) = Some c → is_whitespace c = false.
Proof.
  induction t as [|c t (pre & Ht & Hpre & Hhd)]; simpl.
  - exists []. repeat split; [constructor | discriminate].
  - destruct (is_whitespace c) eqn:Hc.
    + exists (c :: pre). repeat split; [by rewrite Ht at 1 | by constructor | done].
    + exists []. repeat split; [constructor|]. simpl. congruence.
Qed.

Lemma trimEnd_spec (t : ustring) :
  ∃ post, t = trimEnd t ++ post
          ∧ Forall whitespace post
          ∧ ∀ c, last (trimEnd t) = Some c → is_whitespace c = false.
Proof.
  destruct (trimStart_spec (reverse t)) as (pre & Ht & Hpre & Hhd).
  exists (reverse pre). unfold trimEnd. repeat split.
  - rewrite <- reverse_app, <- Ht. by rewrite reverse_involutive.
  - by apply Forall_reverse.
  - intros c. rewrite last_reverse. apply Hhd.
Qed.

Lemma trim_spec (t : ustring) :
  ∃ pre post,
    t = pre ++ trim t ++ post
    ∧ Forall whitespace pre ∧ Forall whitespace post
    ∧ (∀ c, head (trim t) = Some c → is_whitespace c = false)
    ∧ (∀ c, last (trim t) = Some c → is_whitespace c = false).
Proof.
  destruct (trimStart_spec t) as (pre & Ht & Hpre & Hhd).
  destruct (trimEnd_spec (trimStart t)) as (post & Hs & Hpost & Hlast).
  exists pre, post. unfold trim. repeat split; try done.
  - by rewrite <- Hs.
  - intros c Hc. apply Hhd. rewrite Hs.
    destruct (trimEnd (trimStart t)); [discriminate | exact Hc].
Qed.



(** ** Synthesis *)

Lemma require_config_available (E : Env) (v : string) (cfg : TtsConfig) (w : world) :
  config_available v cfg w →
  ∃ w', require_config v w = (Ok (JConfig cfg), w')
        ∧ trace w' = trace w ∧ files w' = files w ∧ model w' = model w
        ∧ uuids_drawn w' = uuids_drawn w.
Proof.
  unfold config_available, config_file, require_config, bind, gets.
  intros [Hc | [Hc Hf]]; rewrite Hc.
  - by exists w.
  - rewrite Hf. unfold modify, ret. eexists. split; [reflexivity|]. done.
Qed.

Lemma require_config_missing (v : string) (w : world) :
  require_cache w !! config_file v = None →
  files w !! config_file v = None →
  require_config v w
  = (Throw (mkError ("Cannot find module './" +:+ config_file v +:+ "'")), w).
Proof.
  unfold config_file, require_config, bind, gets. intros -> ->. done.
Qed.

Lemma generateTts_available (E : Env) (t : ustring) (v out : string)
    (cfg : TtsConfig) (w : world) :
  config_available v cfg w →
  ∃ w', generateTts E t (Some v) (Some out) w
        = (engine_verdict out
             (piper E (pythonPath cfg)
                (piper_args E cfg (or_string v "en_US-lessac-medium") out) (t ++ [10%N])),
           w')
        ∧ trace w'
          = trace w ++ [EvSpawn (pythonPath cfg)
                          (piper_args E cfg (or_string v "en_US-lessac-medium") out)
                          (Some (t ++ [10%N]))].
Proof.
  intros Hcfg.
  destruct (require_config_available E v cfg w Hcfg) as (w1 & Hreq & Htr & _).
  unfold generateTts, bind, ret. simpl. rewrite Hreq.
  unfold new_Promise, bind, lift, modify, piper_args. simpl.
  destruct (piper E _ _ _) as [code|e]; simpl.
  - destruct (code =? 0); simpl; eexists; (split; [reflexivity|]); simpl; by rewrite Htr.
  - eexists; (split; [reflexivity|]); simpl; by rewrite Htr.
Qed.

Lemma effective_voice_truthy (voice : option string) :
  or_string (effective_voice voice) "en_US-lessac-medium" = effective_voice voice.
Proof. by destruct voice as [[|c s]|]. Qed.

Lemma config_available_draw_uuid (v : string) (cfg : TtsConfig) (w : world) :
  config_available v cfg w → config_available v cfg (draw_uuid w).
Proof. done. Qed.

(** With the voice's configuration in place, the promise of
    [synthesizeWithPiper] fulfils with the output path when the engine exits
    with 0 and is never settled otherwise. *)
Lemma synthesize_available (E : Env) (t : ustring) (voice : option string)
    (cfg : TtsConfig) (w : world) :
  config_available (effective_voice voice) cfg w →
  ∃ w', synthesizeWithPiper E t voice w
        = (caller_verdict (next_upload E w)
             (piper E (pythonPath cfg)
                (piper_args E cfg (effective_voice voice) (next_upload E w))
                (stripEmojis E t ++ [10%N])),
           w')
        ∧ EvSpawn (pythonPath cfg)
            (piper_args E cfg (effective_voice voice) (next_upload E w))
            (Some (stripEmojis E t ++ [10%N])) ∈ trace w'.
Proof.
  intros Hcfg. apply config_available_draw_uuid in Hcfg.
  destruct (generateTts_available E (stripEmojis E t) (effective_voice voice)
              (next_upload E w) cfg (draw_uuid w) Hcfg) as (w1 & Hgen & Htr).
  rewrite effective_voice_truthy in Hgen, Htr.
  unfold synthesizeWithPiper, fresh_upload_path, bind, gets, modify, ret.
  unfold new_Promise_async, bind, lift. fold (effective_voice voice).
  fold (next_upload E w). rewrite Hgen.
  destruct (piper E _ _ _) as [code|e]; simpl.
  - destruct (code =? 0); simpl; eexists; (split; [reflexivity|]); simpl;
      rewrite Htr; set_solver.
  - eexists; (split; [reflexivity|]); simpl; rewrite Htr; set_solver.
Qed.

(** The promise [synthesizeWithPiper] returns is never rejected, whatever
    happens inside: its executor never calls [reject]. *)
Lemma synthesize_never_rejects (E : Env) (t : ustring) (voice : option string)
    (w : world) (e : Error) :
  fst (synthesizeWithPiper E t voice w) ≠ Throw e.
Proof.
  unfold synthesizeWithPiper, fresh_upload_path, bind, gets, modify, ret.
  unfold new_Promise_async, bind, lift.
  destruct (generateTts E _ _ _ _) as [[a|e'|c|] w1]; simpl; discriminate.
Qed.

(** Without a configuration for the voice nothing is spawned, and the
    promise given to the caller is left pending. *)
Lemma synthesize_unknown_voice (E : Env) (t : ustring) (voice : option string)
    (w : world) :
  require_cache w !! config_file (effective_voice voice) = None →
  files w !! config_file (effective_voice voice) = None →
  synthesizeWithPiper E t voice w
  = (Hang,
     emit (EvUnhandledRejection
             (mkError ("Cannot find module './"
                       +:+ config_file (effective_voice voice) +:+ "'")))
       (draw_uuid w)).
Proof.
  intros Hc Hf.
  unfold synthesizeWithPiper, fresh_upload_path, gets, modify, ret.
  unfold new_Promise_async, lift, generateTts. fold (effective_voice voice).
  unfold bind, ret. simpl.
  rewrite (require_config_missing (effective_voice voice) (draw_uuid w) Hc Hf).
  reflexivity.
Qed.

(** C3, at the failing input: the default voice is provisioned and the
    engine exits with 1.  [generateTts] rejects with [Piper exited with
    code 1], and the promise [synthesizeWithPiper] gave its caller stays
    pending; the rejection surfaces only as an unhandled one. *)
Theorem C3_engine_failure_never_reaches_caller :
  let E := demo_env 1 [] in
  let hello := ustring_of_string "hello" in
  fst (generateTts E hello (Some "en_US-lessac-medium") (Some "uploads/uuid-0.wav")
         (draw_uuid provisioned_world))
  = Throw (mkError "Piper exited with code 1")
  ∧ fst (synthesizeWithPiper E hello (Some "en_US-lessac-medium") provisioned_world)
    = Hang
  ∧ EvUnhandledRejection (mkError "Piper exited with code 1")
    ∈ trace (snd (synthesizeWithPiper E hello (Some "en_US-lessac-medium")
                    provisioned_world))
  ∧ fst (synthesizeWithPiper (demo_env 0 []) hello (Some "en_US-lessac-medium")
           provisioned_world)
    = Ok (Some "uploads/uuid-0.wav").
Proof. vm_compute. repeat split; set_solver. Qed.

(** C4, at the failing input: no configuration is stored for
    ["nonexistent-voice"].  [require] throws inside [generateTts], no
    process is spawned, and the caller's promise stays pending. *)
Theorem C4_unknown_voice_never_reaches_caller :
  let E := demo_env 0 [] in
  let hi := ustring_of_string "hi" in
  fst (generateTts E hi (Some "nonexistent-voice") (Some "uploads/uuid-0.wav")
         (draw_uuid provisioned_world))
  = Throw (mkError "Cannot find module './tts_configs/nonexistent-voice.json'")
  ∧ fst (synthesizeWithPiper E hi (Some "nonexistent-voice") provisioned_world)
    = Hang
  ∧ Forall (fun ev => is_spawn ev = false)
      (trace (snd (synthesizeWithPiper E hi (Some "nonexistent-voice")
                     provisioned_world))).
Proof. vm_compute. repeat split. repeat constructor. Qed.

(** C10: a call whose voice is absent or the empty string behaves exactly
    as the call naming ["en_US-lessac-medium"]; with that voice's
    configuration in place the engine is spawned from it, the promise is not
    rejected, and it fulfils with the output path when the engine exits
    with 0. *)
Theorem C10_absent_voice_uses_default (E : Env) (t : ustring)
    (voice : option string) (cfg : TtsConfig) (w : world) :
  voice = None ∨ voice = Some "" →
  config_available "en_US-lessac-medium" cfg w →
  synthesizeWithPiper E t voice w
  = synthesizeWithPiper E t (Some "en_US-lessac-medium") w
  ∧ (∀ e, fst (synthesizeWithPiper E t voice w) ≠ Throw e)
  ∧ EvSpawn (pythonPath cfg)
      (piper_args E cfg "en_US-lessac-medium" (next_upload E w))
      (Some (stripEmojis E t ++ [10%N]))
    ∈ trace (snd (synthesizeWithPiper E t voice w))
  ∧ (piper E (pythonPath cfg)
       (piper_args E cfg "en_US-lessac-medium" (next_upload E w))
       (stripEmojis E t ++ [10%N]) = ChildClose 0 →
     fst (synthesizeWithPiper E t voice w) = Ok (Some (next_upload E w))).
Proof.
  intros Hvoice Hcfg.
  assert (Heff : effective_voice voice = "en_US-lessac-medium")
    by (destruct Hvoice as [-> | ->]; reflexivity).
  split; [by destruct Hvoice as [-> | ->]|].
  split; [intros e; apply synthesize_never_rejects|].
  rewrite <- Heff in Hcfg.
  destruct (synthesize_available E t voice cfg w Hcfg) as (w' & Hrun & Hspawn).
  rewrite Heff in Hrun, Hspawn. rewrite Hrun. simpl.
  split; [exact Hspawn|]. by intros ->.
Qed.

Lemma C10_absent_voice_witness :
  synthesizeWithPiper (demo_env 0 []) (ustring_of_string "hi") None provisioned_world
  = synthesizeWithPiper (demo_env 0 []) (ustring_of_string "hi")
      (Some "en_US-lessac-medium") provisioned_world
  ∧ fst (synthesizeWithPiper (demo_env 0 []) (ustring_of_string "hi") None
           provisioned_world)
    = Ok (Some "uploads/uuid-0.wav").
Proof.
  destruct (C10_absent_voice_uses_default (demo_env 0 []) (ustring_of_string "hi")
              None lessac_config provisioned_world) as (Heq & _ & _ & Hok).
  - by left.
  - right. split; reflexivity.
  - split; [exact Heq|]. apply Hok. reflexivity.
Defined.

(** ** Transcription *)

(** The second definition settles with the sentinel whenever the stream
    ends and the trimmed top alternative is empty. *)
Lemma SttV2_silence_resolves_false (E : Env) (filePath : string)
    (w w1 : world) (m : ModelHandle) :
  voskLoader E w = (Ok m, w1) →
  stream_error (read_stream E filePath) = None →
  top_text (finalResult E (chunks (read_stream E filePath))) = [] →
  SttV2.transcribeWithVosk E filePath w
  = (Ok NoSpeech, emit EvRecognizerFree (emit (EvRecognizerNew m) w1)).
Proof.
  intros Hload Hend Htext.
  unfold SttV2.transcribeWithVosk, new_Promise_async, try_catch, bind, lift.
  rewrite Hload. simpl. rewrite Hend. unfold try_catch, bind, lift. simpl.
  rewrite Htext. done.
Qed.

(** ... and with the text otherwise. *)
Lemma SttV2_speech_resolves_text (E : Env) (filePath : string)
    (w w1 : world) (m : ModelHandle) :
  voskLoader E w = (Ok m, w1) →
  stream_error (read_stream E filePath) = None →
  top_text (finalResult E (chunks (read_stream E filePath))) ≠ [] →
  SttV2.transcribeWithVosk E filePath w
  = (Ok (Transcript (top_text (finalResult E (chunks (read_stream E filePath))))),
     emit EvRecognizerFree (emit (EvRecognizerNew m) w1)).
Proof.
  intros Hload Hend Htext.
  unfold SttV2.transcribeWithVosk, new_Promise_async, try_catch, bind, lift.
  rewrite Hload. simpl. rewrite Hend. unfold try_catch, bind, lift. simpl.
  destruct (top_text _); [done|]. done.
Qed.

(** The first definition never resolves with the sentinel. *)
Lemma SttV1_never_resolves_false (E : Env) (filePath : string) (w : world) :
  fst (SttV1.transcribeWithVosk E filePath w) ≠ Ok NoSpeech.
Proof.
  unfold SttV1.transcribeWithVosk, new_Promise_async, new_Promise, bind, lift.
  destruct (voskLoader E w) as [[m|e|c|] w1]; simpl; try discriminate.
  destruct (stream_error _); simpl; try discriminate.
  destruct (finalResult E _) as [[[[|[[t|]] alts]|]]|]; simpl; try discriminate.
  destruct (truthy_text t); simpl; discriminate.
Qed.

(** C6, at the failing input: a silent recording, whose final result has
    the empty string as its only alternative.  The first definition of
    [transcribeWithVosk] leaves its promise pending; the second definition
    resolves with [false]. *)
Theorem C6_silence_hangs_in_first_definition :
  let E := demo_env 0 [] in
  finalResult E (chunks (read_stream E "uploads/silence.wav"))
  = Some {| alternatives := Some [ {| alt_text := Some [] |} ] |}
  ∧ fst (SttV1.transcribeWithVosk E "uploads/silence.wav" provisioned_world) = Hang
  ∧ fst (SttV2.transcribeWithVosk E "uploads/silence.wav" provisioned_world)
    = Ok NoSpeech.
Proof. by vm_compute. Qed.

(** ** Reasoning about whole runs *)

Section Generic.
Context {S : Type} (R : relation S) `{!PreOrder R}.

Lemma steps_ret {A} (a : A) : steps R (ret a).
Proof. intros s. reflexivity. Qed.

Lemma steps_throw {A} (e : Error) : steps R (throw e : M S A).
Proof. intros s. reflexivity. Qed.

Lemma steps_process_exit {A} (c : Z) : steps R (process_exit c : M S A).
Proof. intros s. reflexivity. Qed.

Lemma steps_never {A} : steps R (never : M S A).
Proof. intros s. reflexivity. Qed.

Lemma steps_gets {A} (f : S → A) : steps R (gets f).
Proof. intros s. reflexivity. Qed.

Lemma steps_modify (f : S → S) : (∀ s, R s (f s)) → steps R (modify f).
Proof. intros H s. apply H. Qed.

Lemma steps_bind {A B} (m : M S A) (k : A → M S B) :
  steps R m → (∀ a, steps R (k a)) → steps R (bind m k).
Proof.
  intros Hm Hk s. unfold bind. specialize (Hm s).
  destruct (m s) as [[a|e|c|] s1]; simpl in *; try done.
  etrans; [exact Hm | apply Hk].
Qed.

Lemma steps_try_catch {A} (m : M S A) (h : Error → M S A) :
  steps R m → (∀ e, steps R (h e)) → steps R (try_catch m h).
Proof.
  intros Hm Hh s. unfold try_catch. specialize (Hm s).
  destruct (m s) as [[a|e|c|] s1]; simpl in *; try done.
  etrans; [exact Hm | apply Hh].
Qed.

Lemma steps_for_of {A} (xs : list A) (body : A → M S unit) :
  (∀ x, steps R (body x)) → steps R (for_of xs body).
Proof.
  intros Hbody. induction xs as [|x xs IH]; simpl.
  - apply steps_ret.
  - apply steps_bind; [apply Hbody | intros _; exact IH].
Qed.

End Generic.

Global Instance on_world_preorder {X} (R : relation world) `{!PreOrder R} :
  PreOrder (@on_world X R).
Proof.
  split.
  - intros [w x]. unfold on_world. reflexivity.
  - intros [w1 x1] [w2 x2] [w3 x3]. unfold on_world. simpl. apply transitivity.
Qed.

Global Instance quiet_preorder (f : event → bool) : PreOrder (quiet f).
Proof.
  split.
  - intros w. exists []. split; [by rewrite app_nil_r | constructor].
  - intros w1 w2 w3 (e1 & H1 & F1) (e2 & H2 & F2). exists (e1 ++ e2). split.
    + by rewrite H2, H1, app_assoc.
    + by apply Forall_app.
Qed.

Global Instance model_untouched_preorder : PreOrder model_untouched.
Proof.
  split.
  - by intros w.
  - intros x y z [H1 H2] [H3 H4]. split; congruence.
Qed.

Global Instance model_kept_preorder : PreOrder model_kept.
Proof.
  split.
  - intros w. unfold model_kept. destruct (model w); [done | by left].
  - intros w1 w2 w3. unfold model_kept.
    destruct (model w1) as [h1|].
    + intros [H12 B12]. rewrite H12. intros [H23 B23]. split; congruence.
    + intros [[H12 B12] | (h & H12 & B12)]; rewrite H12.
      * intros [[H23 B23] | (h & H23 & B23)]; [left | right; exists h];
          split; congruence.
      * intros [H23 B23]. right. exists h. split; congruence.
Qed.

Lemma steps_lift {X A} (R : relation world) (m : M world A) :
  steps R m → steps (on_world R) (lift m : P X A).
Proof.
  intros Hm [w x]. unfold lift, on_world. specialize (Hm w).
  destruct (m w) as [r w']. exact Hm.
Qed.

Lemma steps_settle {X} (R : relation world) `{!PreOrder R} (v : settled X) :
  steps (on_world R) (settle v).
Proof. intros [w x]. unfold on_world. simpl. reflexivity. Qed.

Lemma steps_new_Promise {X} (R : relation world) (executor : P X unit) :
  steps (on_world R) executor → steps R (new_Promise executor).
Proof.
  intros Hex w. unfold new_Promise. specialize (Hex (w, None)).
  unfold on_world in Hex.
  destruct (executor (w, None)) as [[[]|e|c|] [w' [slot|]]]; exact Hex.
Qed.

Lemma steps_new_Promise_async {X} (R : relation world) `{!PreOrder R}
    (executor : P X unit) :
  (∀ e w, R w (emit (EvUnhandledRejection e) w)) →
  steps (on_world R) executor → steps R (new_Promise_async executor).
Proof.
  intros Hemit Hex w. unfold new_Promise_async. specialize (Hex (w, None)).
  unfold on_world in Hex.
  destruct (executor (w, None)) as [[[]|e|c|] [w' slot]]; simpl in *; try exact Hex.
  etrans; [exact Hex | apply Hemit].
Qed.

(** Every function of the program keeps a relation that its primitive
    state changes keep.  Each lemma below ends up assuming only the
    changes its function can make. *)
Section Program.
Variable E : Env.
Variable R : relation world.
Context `{!PreOrder R}.
Variable ok : event → Prop.
Hypothesis R_files : ∀ f w, R w (set_files f w).
Hypothesis R_cfg : ∀ f w, R w (set_ttsConfigs f w).
Hypothesis R_cache : ∀ f w, R w (set_require_cache f w).
Hypothesis R_uuid : ∀ w, R w (draw_uuid w).
Hypothesis R_model : ∀ m w, model w = None → R w (set_model m w).
Hypothesis R_emit : ∀ e w, ok e → R w (emit e w).
Hypothesis ok_log : ∀ msg, ok (EvLog msg).
Hypothesis ok_download : ∀ url dest, ok (EvDownload url dest).
Hypothesis ok_extract : ∀ zip dir, ok (EvExtract zip dir).
Hypothesis ok_unlink : ∀ p, ok (EvUnlink p).
Hypothesis ok_chmod : ∀ p, ok (EvChmod p).
Hypothesis ok_write : ∀ p, ok (EvWriteFile p).
Hypothesis ok_spawn : ∀ cmd args stdin, ok (EvSpawn cmd args stdin).
Hypothesis ok_model_new : ∀ p, ok (EvModelNew p).
Hypothesis ok_rec_new : ∀ m, ok (EvRecognizerNew m).
Hypothesis ok_rec_free : ok EvRecognizerFree.
Hypothesis ok_unhandled : ∀ e, ok (EvUnhandledRejection e).
Hypothesis ok_uncaught : ∀ e, ok (EvUncaughtException e).

Ltac chain :=
  repeat first
    [ reflexivity
    | (etrans; [| apply R_emit; solve [auto]])
    | (etrans; [| apply R_files])
    | (etrans; [| apply R_cfg])
    | (etrans; [| apply R_cache])
    | (etrans; [| apply R_uuid]) ].

Ltac steps_go :=
  repeat first
    [ progress intros
    | assumption
    | match goal with H : context [steps] |- steps _ _ => apply H end
    | apply steps_ret | apply steps_throw | apply steps_process_exit
    | apply steps_never
    | apply steps_gets
    | (apply steps_modify; intros ?; solve [chain])
    | apply steps_bind | apply steps_try_catch | apply steps_for_of
    | apply steps_lift | apply steps_settle
    | apply steps_new_Promise
    | (apply steps_new_Promise_async; try solve [intros; chain])
    | match goal with
      | |- PreOrder _ => typeclasses eauto
      | |- steps _ (match ?x with _ => _ end) => destruct x
      end ].

Lemma steps_log (msg : string) : steps R (log msg).
Proof. unfold log. steps_go. Qed.

Lemma steps_mkdir_p (p : string) : steps R (mkdir_p p).
Proof. unfold mkdir_p. steps_go. Qed.

Lemma steps_unlink (p : string) : steps R (unlink p).
Proof. unfold unlink. steps_go. Qed.

Lemma steps_readFile (p : string) : steps R (readFile p).
Proof. unfold readFile. steps_go. Qed.

Lemma steps_writeFile (p : string) (d : file_data) : steps R (writeFile p d).
Proof. unfold writeFile. steps_go. Qed.

Lemma steps_readdir (p : string) : steps R (readdir p).
Proof. unfold readdir. steps_go. Qed.

Lemma steps_loadTtsConfigs : steps R loadTtsConfigs.
Proof.
  pose proof steps_log. pose proof steps_mkdir_p. pose proof steps_readFile.
  pose proof steps_readdir.
  unfold loadTtsConfigs, loadTtsConfig_entry, JSON_parse. steps_go.
Qed.

Lemma steps_require_config (v : string) : steps R (require_config v).
Proof. unfold require_config. steps_go. Qed.

Lemma steps_fresh_upload_path : steps R (fresh_upload_path E).
Proof. unfold fresh_upload_path. steps_go. Qed.

Lemma steps_generateTts (t : ustring) (provider outputFile : option string) :
  steps R (generateTts E t provider outputFile).
Proof.
  pose proof steps_log. pose proof steps_require_config.
  pose proof steps_fresh_upload_path.
  unfold generateTts, resolve, reject. steps_go.
Qed.

Lemma steps_synthesizeWithPiper (t : ustring) (voice : option string) :
  steps R (synthesizeWithPiper E t voice).
Proof.
  pose proof steps_log. pose proof steps_generateTts.
  pose proof steps_fresh_upload_path.
  unfold synthesizeWithPiper, resolve. steps_go.
Qed.

Lemma steps_voskLoader : steps R (voskLoader E).
Proof.
  intros w. unfold voskLoader, bind, gets, log, modify, process_exit, ret.
  destruct (model w) eqn:Hm; simpl; [reflexivity|].
  destruct (exists_path (MODEL_PATH E) w); simpl.
  - chain. by apply R_model.
  - chain.
Qed.

Lemma steps_new_Recognizer (m : ModelHandle) : steps R (new_Recognizer m).
Proof. unfold new_Recognizer. steps_go. Qed.

Lemma steps_rec_free : steps R rec_free.
Proof. unfold rec_free. steps_go. Qed.

Lemma steps_transcribe_V1 (filePath : string) :
  steps R (SttV1.transcribeWithVosk E filePath).
Proof.
  pose proof steps_log. pose proof steps_voskLoader.
  pose proof steps_new_Recognizer. pose proof steps_rec_free.
  unfold SttV1.transcribeWithVosk, resolve, reject. steps_go.
Qed.

Lemma steps_transcribe_V2 (filePath : string) :
  steps R (SttV2.transcribeWithVosk E filePath).
Proof.
  pose proof steps_voskLoader.
  pose proof steps_new_Recognizer. pose proof steps_rec_free.
  unfold SttV2.transcribeWithVosk, resolve, reject. steps_go.
Qed.

Lemma steps_extractZip (zipPath extractTo : string) :
  steps R (extractZip E zipPath extractTo).
Proof. pose proof steps_log. unfold extractZip. steps_go. Qed.

Lemma steps_downloadFile (url dest : string) : steps R (downloadFile E url dest).
Proof. pose proof steps_mkdir_p. unfold downloadFile. steps_go. Qed.

Lemma steps_fileExists (p : string) : steps R (fileExists p).
Proof. unfold fileExists. steps_go. Qed.

Lemma steps_runCommand (cmd : string) (args : list string) :
  steps R (runCommand E cmd args).
Proof. unfold runCommand. steps_go. Qed.

Lemma steps_access (p : string) : steps R (access p).
Proof. unfold access. steps_go. Qed.

Lemma steps_model_present_block : steps R (model_present_block E).
Proof.
  pose proof steps_log. pose proof steps_access. pose proof steps_voskLoader.
  pose proof steps_loadTtsConfigs.
  unfold model_present_block. steps_go.
Qed.

Lemma steps_after_download :
  steps R (extractZip E (ZIP_PATH E) EXTRACT_PATH >>
           unlink (ZIP_PATH E) >>
           log "Model is ready." >>
           let* model := voskLoader E in
           loadTtsConfigs).
Proof.
  pose proof steps_log. pose proof steps_voskLoader.
  pose proof steps_loadTtsConfigs. pose proof steps_extractZip.
  pose proof steps_unlink.
  steps_go.
Qed.

Lemma steps_after_extract :
  steps R (unlink (ZIP_PATH E) >>
           log "Model is ready." >>
           let* model := voskLoader E in
           loadTtsConfigs).
Proof.
  pose proof steps_log. pose proof steps_voskLoader.
  pose proof steps_loadTtsConfigs. pose proof steps_unlink.
  steps_go.
Qed.

Lemma steps_download_block : steps R (download_block E).
Proof.
  pose proof steps_downloadFile. pose proof steps_after_download.
  unfold download_block. steps_go.
Qed.

Lemma steps_ensureVoskModelDownloaded : steps R (ensureVoskModelDownloaded E).
Proof.
  pose proof steps_log. pose proof steps_model_present_block.
  pose proof steps_download_block.
  unfold ensureVoskModelDownloaded. steps_go.
Qed.

Lemma steps_installPython : steps R (installPython E).
Proof.
  pose proof steps_log. pose proof steps_fileExists. pose proof steps_downloadFile.
  pose proof steps_runCommand. pose proof steps_unlink.
  unfold installPython. steps_go.
Qed.

Lemma steps_installPiper : steps R (installPiper E).
Proof.
  pose proof steps_log. pose proof steps_runCommand.
  unfold installPiper. steps_go.
Qed.

Lemma steps_downloadVoice (m : VoiceModel) : steps R (downloadVoice E m).
Proof.
  pose proof steps_log. pose proof steps_fileExists. pose proof steps_downloadFile.
  unfold downloadVoice. steps_go.
Qed.

Lemma steps_writeVoiceConfig (m : VoiceModel) : steps R (writeVoiceConfig E m).
Proof.
  pose proof steps_log. pose proof steps_writeFile.
  unfold writeVoiceConfig. steps_go.
Qed.

Lemma steps_runtime_stages : steps R (runtime_stages E).
Proof.
  pose proof steps_mkdir_p. pose proof steps_installPython.
  pose proof steps_installPiper.
  unfold runtime_stages. steps_go.
Qed.

Lemma steps_setupPiper : steps R (setupPiper E).
Proof.
  pose proof steps_log. pose proof steps_mkdir_p. pose proof steps_installPython.
  pose proof steps_installPiper. pose proof steps_downloadVoice.
  pose proof steps_writeVoiceConfig. pose proof steps_ensureVoskModelDownloaded.
  unfold setupPiper, runtime_stages, voice_stages. steps_go.
Qed.

End Program.

(** *** The two relations used below *)

Lemma quiet_unchanged (f : event → bool) (w w' : world) :
  trace w' = trace w → quiet f w w'.
Proof. intros H. exists []. split; [by rewrite app_nil_r | constructor]. Qed.

Lemma quiet_emit (f : event → bool) (e : event) (w : world) :
  f e = false → quiet f w (emit e w).
Proof. intros H. exists [e]. split; [done | by constructor]. Qed.

Lemma model_kept_unchanged (w w' : world) :
  model w' = model w → models_built w' = models_built w → model_kept w w'.
Proof.
  intros Hm Hb. unfold model_kept. rewrite Hm, Hb.
  destruct (model w); [done | by left].
Qed.

Lemma model_kept_set_model (m : ModelHandle) (w : world) :
  model w = None → model_kept w (set_model m w).
Proof. intros H. unfold model_kept. rewrite H. right. by exists m. Qed.

Section ModelKept.
Variable E : Env.

Lemma model_kept_emit (e : event) (w : world) :
  all_events e → model_kept w (emit e w).
Proof. intros _. by apply model_kept_unchanged. Qed.

Lemma model_kept_perform (c : call) : steps model_kept (perform E c).
Proof.
  assert (Hf : ∀ f w, model_kept w (set_files f w))
    by (intros; by apply model_kept_unchanged).
  assert (Hc : ∀ f w, model_kept w (set_ttsConfigs f w))
    by (intros; by apply model_kept_unchanged).
  assert (Hr : ∀ f w, model_kept w (set_require_cache f w))
    by (intros; by apply model_kept_unchanged).
  assert (Hu : ∀ w, model_kept w (draw_uuid w))
    by (intros; by apply model_kept_unchanged).
  destruct c; simpl.
  - apply steps_bind; [apply _| |intros; apply steps_ret; apply _].
    apply (steps_voskLoader E model_kept all_events
             model_kept_set_model model_kept_emit); done.
  - apply steps_bind; [apply _| |intros; apply steps_ret; apply _].
    apply (steps_transcribe_V1 E model_kept all_events
             model_kept_set_model model_kept_emit); done.
  - apply steps_bind; [apply _| |intros; apply steps_ret; apply _].
    apply (steps_transcribe_V2 E model_kept all_events
             model_kept_set_model model_kept_emit); done.
  - apply steps_bind; [apply _| |intros; apply steps_ret; apply _].
    apply (steps_synthesizeWithPiper E model_kept all_events
             Hr Hu model_kept_emit); done.
  - apply (steps_loadTtsConfigs model_kept all_events Hf Hc model_kept_emit); done.
  - apply (steps_ensureVoskModelDownloaded E model_kept all_events
             Hf Hc model_kept_set_model model_kept_emit); done.
  - apply (steps_setupPiper E model_kept all_events
             Hf Hc model_kept_set_model model_kept_emit); done.
Qed.

Lemma model_kept_run_calls (cs : list call) (w : world) :
  model_kept w (run_calls E cs w).
Proof.
  revert w. induction cs as [|c cs IH]; intros w; simpl; [reflexivity|].
  pose proof (model_kept_perform c w) as Hc.
  destruct (perform E c w) as [[[]|e|code|] w']; simpl in Hc; try done;
    (etrans; [exact Hc | apply IH]).
Qed.

End ModelKept.

Lemma voskLoader_cached (E : Env) (w : world) (h : ModelHandle) :
  model w = Some h → voskLoader E w = (Ok h, w).
Proof. intros H. unfold voskLoader, bind, gets. by rewrite H. Qed.

Lemma voskLoader_Ok (E : Env) (w w' : world) (h : ModelHandle) :
  voskLoader E w = (Ok h, w') → model w' = Some h.
Proof.
  unfold voskLoader, bind, gets, log, modify, process_exit, ret.
  destruct (model w) eqn:Hm; simpl.
  - intros [= <- <-]. exact Hm.
  - destruct (exists_path (MODEL_PATH E) w); simpl; [|discriminate].
    by intros [= <- <-].
Qed.

(** C9: the first call to [voskLoader], made with no model loaded and the
    model folder on disk, builds one model and caches its handle; whatever
    calls into the two modules follow, the cached handle stays the same
    object, no further model is built, and a later call to [voskLoader]
    returns that handle and changes nothing, not even the trace.  With the
    folder missing the first call ends the process and no model is built.
    In general: a call with a model already loaded returns that handle and
    changes nothing; a call that returns a handle leaves it cached, so the
    next call returns the same one; and over any sequence of calls a loaded
    model is neither cleared nor replaced nor built again, and from the
    unloaded state at most one model is built. *)
Theorem C9_model_loaded_once (E : Env) (w : world) (cs : list call) :
  (model w = None → exists_path (MODEL_PATH E) w = true →
     ∃ h w', voskLoader E w = (Ok h, w')
             ∧ model w' = Some h
             ∧ models_built w' = Datatypes.S (models_built w)
             ∧ EvModelNew (MODEL_PATH E) ∈ trace w'
             ∧ model (run_calls E cs w') = Some h
             ∧ models_built (run_calls E cs w') = Datatypes.S (models_built w)
             ∧ voskLoader E (run_calls E cs w') = (Ok h, run_calls E cs w'))
  ∧ (model w = None → exists_path (MODEL_PATH E) w = false →
     fst (voskLoader E w) = Exit 1
     ∧ model (snd (voskLoader E w)) = None
     ∧ models_built (snd (voskLoader E w)) = models_built w)
  ∧ (∀ h, model w = Some h → voskLoader E w = (Ok h, w))
  ∧ (∀ h w', voskLoader E w = (Ok h, w') →
       model w' = Some h ∧ voskLoader E w' = (Ok h, w'))
  ∧ (∀ h, model w = Some h →
       model (run_calls E cs w) = Some h
       ∧ models_built (run_calls E cs w) = models_built w)
  ∧ (model w = None →
       (models_built (run_calls E cs w) ≤ models_built w + 1)%nat).
Proof.
  split.
  { intros Hm Hdir.
    set (h := {| model_path := MODEL_PATH E; model_id := models_built w |}).
    set (w' := emit (EvLog "Vosk model loaded.")
                 (emit (EvModelNew (MODEL_PATH E)) (set_model h w))).
    assert (Hrun : voskLoader E w = (Ok h, w')).
    { unfold voskLoader, log, modify, process_exit, gets, ret, bind.
      by rewrite Hm, Hdir. }
    assert (Hw' : model w' = Some h) by done.
    exists h, w'. split; [exact Hrun|]. split; [exact Hw'|].
    split; [done|].
    split.
    { unfold w', emit. simpl. set_solver. }
    pose proof (model_kept_run_calls E cs w') as Hk. unfold model_kept in Hk.
    rewrite Hw' in Hk. destruct Hk as [Hk1 Hk2].
    split; [exact Hk1|]. split; [by rewrite Hk2|].
    by apply voskLoader_cached. }
  split.
  { intros Hm Hdir.
    unfold voskLoader, log, modify, process_exit, gets, ret, bind.
    by rewrite Hm, Hdir. }
  split; [intros h; apply voskLoader_cached|].
  split.
  { intros h w' H. pose proof (voskLoader_Ok E w w' h H) as Hm.
    split; [exact Hm | by apply voskLoader_cached]. }
  pose proof (model_kept_run_calls E cs w) as Hk. unfold model_kept in Hk.
  split.
  - intros h Hm. by rewrite Hm in Hk.
  - intros Hm. rewrite Hm in Hk.
    destruct Hk as [[_ ->] | (h & _ & ->)]; lia.
Qed.

Lemma C9_model_loaded_once_witness :
  (∃ h w',
      voskLoader (demo_env 0 []) provisioned_world = (Ok h, w')
      ∧ model w' = Some h
      ∧ models_built w' = 1%nat
      ∧ EvModelNew (MODEL_PATH (demo_env 0 [])) ∈ trace w'
      ∧ model (run_calls (demo_env 0 [])
                 [CallTranscribeV2 "uploads/a.wav"; CallVoskLoader;
                  CallEnsureVoskModelDownloaded; CallTranscribeV1 "uploads/b.wav"]
                 w') = Some h
      ∧ models_built (run_calls (demo_env 0 [])
                        [CallTranscribeV2 "uploads/a.wav"; CallVoskLoader;
                         CallEnsureVoskModelDownloaded;
                         CallTranscribeV1 "uploads/b.wav"]
                        w') = 1%nat
      ∧ voskLoader (demo_env 0 [])
          (run_calls (demo_env 0 [])
             [CallTranscribeV2 "uploads/a.wav"; CallVoskLoader;
              CallEnsureVoskModelDownloaded; CallTranscribeV1 "uploads/b.wav"]
             w')
        = (Ok h,
           run_calls (demo_env 0 [])
             [CallTranscribeV2 "uploads/a.wav"; CallVoskLoader;
              CallEnsureVoskModelDownloaded; CallTranscribeV1 "uploads/b.wav"]
             w'))
  ∧ (models_built
       (run_calls (demo_env 0 [])
          [CallVoskLoader; CallTranscribeV2 "uploads/a.wav"; CallVoskLoader;
           CallEnsureVoskModelDownloaded; CallTranscribeV1 "uploads/b.wav"]
          provisioned_world)
     ≤ models_built provisioned_world + 1)%nat.
Proof.
  split.
  - apply (C9_model_loaded_once (demo_env 0 []) provisioned_world
             [CallTranscribeV2 "uploads/a.wav"; CallVoskLoader;
              CallEnsureVoskModelDownloaded; CallTranscribeV1 "uploads/b.wav"]);
      reflexivity.
  - apply (C9_model_loaded_once (demo_env 0 []) provisioned_world). reflexivity.
Defined.

(** ** Loading the voice configurations *)

Lemma apply_ops_union (ops : list (string * json_value))
    (T : gmap string json_value) :
  apply_ops ops T = list_to_map (reverse ops) ∪ T.
Proof.
  unfold apply_ops. revert T.
  induction ops as [|[k v] ops IH]; intros T; simpl.
  - by rewrite (left_id_L ∅ (∪)).
  - rewrite IH, reverse_cons, list_to_map_app. simpl.
    rewrite <- (assoc_L (∪)). f_equal.
    by rewrite insert_empty, <- insert_union_singleton_l.
Qed.

Lemma apply_ops_idem (ops : list (string * json_value))
    (T : gmap string json_value) :
  apply_ops ops (apply_ops ops T) = apply_ops ops T.
Proof.
  rewrite !apply_ops_union, (assoc_L (∪)). f_equal. apply (idemp_L (∪)).
Qed.

Lemma loadTtsConfig_entry_run (file : string) (w : world) :
  loadTtsConfig_entry file w
  = if endsWith ".json" file then
      match files w !! path_join "tts_configs" file with
      | Some (File (JsonDoc j)) =>
          (Ok tt, emit (EvLog ("Loaded TTS config: " +:+ slice_off_end 5 file))
                    (set_ttsConfigs (insert (slice_off_end 5 file) j) w))
      | Some (File Blob) =>
          (Ok tt, emit (EvLog ("Error parsing TTS config " +:+ file
                               +:+ ": Unexpected token in JSON")) w)
      | Some Dir =>
          (Throw (mkError "EISDIR: illegal operation on a directory, read"), w)
      | None =>
          (Throw (mkError ("ENOENT: no such file or directory, open '"
                           +:+ path_join "tts_configs" file +:+ "'")), w)
      end
    else (Ok tt, w).
Proof.
  unfold loadTtsConfig_entry. destruct (endsWith ".json" file); [|reflexivity].
  unfold readFile, JSON_parse, log, modify, gets, ret, throw, try_catch, bind.
  destruct (files w !! path_join "tts_configs" file) as [[|[|j]]|]; reflexivity.
Qed.

Lemma load_loop (l : list string) (w : world) :
  ∃ r w',
    for_of l loadTtsConfig_entry w = (r, w')
    ∧ (r = Ok tt ∨ ∃ e, r = Throw e)
    ∧ forget_trace w'
      = set_ttsConfigs (apply_ops (load_ops (files w) l)) (forget_trace w).
Proof.
  revert w. induction l as [|file l IH]; intros w.
  - exists (Ok tt), w. split; [done|]. split; [by left|]. by destruct w.
  - simpl. unfold bind. rewrite loadTtsConfig_entry_run.
    destruct (endsWith ".json" file).
    + destruct (files w !! path_join "tts_configs" file) as [[|[|j]]|] eqn:Hf.
      * eexists _, w. split; [reflexivity|]. split; [by eauto|]. by destruct w.
      * destruct (IH (emit (EvLog ("Error parsing TTS config " +:+ file
                                   +:+ ": Unexpected token in JSON")) w))
          as (r & w' & Hrun & Hr & Hw).
        exists r, w'. split; [exact Hrun|]. split; [exact Hr|]. exact Hw.
      * destruct (IH (emit (EvLog ("Loaded TTS config: " +:+ slice_off_end 5 file))
                        (set_ttsConfigs (insert (slice_off_end 5 file) j) w)))
          as (r & w' & Hrun & Hr & Hw).
        exists r, w'. split; [exact Hrun|]. split; [exact Hr|]. exact Hw.
      * eexists _, w. split; [reflexivity|]. split; [by eauto|]. by destruct w.
    + destruct (IH w) as (r & w' & Hrun & Hr & Hw).
      exists r, w'. done.
Qed.

Lemma set_files_same (w : world) : set_files (fun _ => files w) w = w.
Proof. by destruct w. Qed.

Lemma loadTtsConfigs_spec (w : world) :
  ∃ w', loadTtsConfigs w = (Ok tt, w')
        ∧ forget_trace w' = forget_trace (loaded w).
Proof.
  unfold loadTtsConfigs, loaded, with_config_dir.
  unfold mkdir_p, readdir, log, modify, gets, throw, try_catch, bind.
  destruct (files w !! "tts_configs") as [[|d]|] eqn:Hd; simpl.
  - rewrite Hd.
    destruct (load_loop (entries_of "tts_configs" (files w)) w)
      as (r & w' & -> & [-> | [e ->]] & Hw);
      eexists; (split; [reflexivity|]); simpl;
      rewrite set_files_same; exact Hw.
  - eexists. split; [reflexivity|]. done.
  - rewrite lookup_insert_eq.
    destruct (load_loop
                (entries_of "tts_configs" (files (set_files (insert "tts_configs" Dir) w)))
                (set_files (insert "tts_configs" Dir) w))
      as (r & w' & -> & [-> | [e ->]] & Hw);
      eexists; (split; [reflexivity|]); simpl; exact Hw.
Qed.

Lemma loaded_forget_trace (w : world) :
  loaded (forget_trace w) = forget_trace (loaded w).
Proof.
  unfold loaded. simpl. by destruct (files w !! "tts_configs") as [[|d]|].
Qed.

Lemma loaded_idem (w : world) : loaded (loaded w) = loaded w.
Proof.
  destruct w as [F T C m b u tr]. unfold loaded, with_config_dir. simpl.
  destruct (F !! "tts_configs") as [[|d]|] eqn:Hd; simpl.
  - rewrite Hd. unfold set_ttsConfigs, set_files. simpl.
    by rewrite apply_ops_idem.
  - by rewrite Hd.
  - rewrite !lookup_insert_eq. unfold set_ttsConfigs, set_files. simpl.
    by rewrite apply_ops_idem.
Qed.

(** Loading the configurations a second time changes nothing but the
    trace. *)
Lemma loadTtsConfigs_twice (w w1 w1' : world) :
  loadTtsConfigs w = (Ok tt, w1) →
  forget_trace w1' = forget_trace w1 →
  ∃ w2, loadTtsConfigs w1' = (Ok tt, w2) ∧ forget_trace w2 = forget_trace w1.
Proof.
  intros H1 Hsame.
  destruct (loadTtsConfigs_spec w) as (w1_ & H1' & Hw1). rewrite H1 in H1'.
  injection H1' as <-.
  destruct (loadTtsConfigs_spec w1') as (w2 & H2 & Hw2).
  exists w2. split; [exact H2|].
  rewrite Hw2, <- loaded_forget_trace, Hsame, Hw1, <- !loaded_forget_trace.
  by rewrite loaded_idem.
Qed.

(** ** The recognition model *)

Lemma bind_Ok_inv {S A B} (m : M S A) (k : A → M S B) (s s' : S) (b : B) :
  bind m k s = (Ok b, s') → ∃ a s0, m s = (Ok a, s0) ∧ k a s0 = (Ok b, s').
Proof.
  unfold bind. destruct (m s) as [[a|e|c|] s0]; try discriminate. eauto.
Qed.

Lemma count_events_app (f : event → bool) (a b : list event) :
  count_events f (a ++ b) = (count_events f a + count_events f b)%nat.
Proof. induction a as [|e a IH]; simpl; [done|]. rewrite IH. lia. Qed.

Lemma count_events_quiet (f : event → bool) (evs : list event) :
  Forall (fun e => f e = false) evs → count_events f evs = 0%nat.
Proof. induction 1 as [|e evs He _ IH]; simpl; [done|]. by rewrite He, IH. Qed.

Lemma at_most_refl (f : event → bool) (n : nat) (w : world) : at_most f n w w.
Proof. exists []. split; [by rewrite app_nil_r | simpl; lia]. Qed.

Lemma quiet_at_most (f : event → bool) (n : nat) (x y : world) :
  quiet f x y → at_most f n x y.
Proof.
  intros (evs & Ht & Hq). exists evs. split; [done|].
  rewrite (count_events_quiet _ _ Hq). lia.
Qed.

Lemma quiet_then_at_most (f : event → bool) (n : nat) (x y z : world) :
  quiet f x y → at_most f n y z → at_most f n x z.
Proof.
  intros (e1 & H1 & Hq) (e2 & H2 & Hn). exists (e1 ++ e2). split.
  - by rewrite H2, H1, app_assoc.
  - rewrite count_events_app, (count_events_quiet _ _ Hq). lia.
Qed.

Lemma at_most_then_quiet (f : event → bool) (n : nat) (x y z : world) :
  at_most f n x y → quiet f y z → at_most f n x z.
Proof.
  intros (e1 & H1 & Hn) (e2 & H2 & Hq). exists (e1 ++ e2). split.
  - by rewrite H2, H1, app_assoc.
  - rewrite count_events_app, (count_events_quiet _ _ Hq). lia.
Qed.

Lemma quiet_weaken (f g : event → bool) (x y : world) :
  (∀ e, f e = false → g e = false) → quiet f x y → quiet g x y.
Proof.
  intros Hfg (evs & Ht & Hq). exists evs. split; [done|].
  eapply Forall_impl; [exact Hq | exact Hfg].
Qed.

(** [steps] through a sequence whose two halves keep different relations. *)
Lemma steps_bind_mixed {S A B} (R1 R2 R3 : relation S)
    (m : M S A) (k : A → M S B) :
  steps R1 m → (∀ a, steps R2 (k a)) →
  (∀ x y, R1 x y → R3 x y) → (∀ x y z, R1 x y → R2 y z → R3 x z) →
  steps R3 (bind m k).
Proof.
  intros Hm Hk Hsub Hcomp s. unfold bind. specialize (Hm s).
  destruct (m s) as [[a|e|c|] s1]; simpl in *; eauto.
  eapply Hcomp; [exact Hm | apply Hk].
Qed.

Lemma steps_try_catch_mixed {S A} (R1 R2 R3 : relation S)
    (m : M S A) (h : Error → M S A) :
  steps R1 m → (∀ e, steps R2 (h e)) →
  (∀ x y, R1 x y → R3 x y) → (∀ x y z, R1 x y → R2 y z → R3 x z) →
  steps R3 (try_catch m h).
Proof.
  intros Hm Hh Hsub Hcomp s. unfold try_catch. specialize (Hm s).
  destruct (m s) as [[a|e|c|] s1]; simpl in *; eauto.
  eapply Hcomp; [exact Hm | apply Hh].
Qed.

Section Quiet.
Variable E : Env.
Variable f : event → bool.

Lemma quiet_set_files g w : quiet f w (set_files g w).
Proof. by apply quiet_unchanged. Qed.
Lemma quiet_set_ttsConfigs g w : quiet f w (set_ttsConfigs g w).
Proof. by apply quiet_unchanged. Qed.
Lemma quiet_set_model m w : model w = None → quiet f w (set_model m w).
Proof. intros _. by apply quiet_unchanged. Qed.
Lemma quiet_emit_allowed e w : outside f e → quiet f w (emit e w).
Proof. apply quiet_emit. Qed.

Hypothesis f_log : ∀ msg, f (EvLog msg) = false.
Hypothesis f_model_new : ∀ p, f (EvModelNew p) = false.

Lemma quiet_model_present_block : steps (quiet f) (model_present_block E).
Proof.
  apply (steps_model_present_block E (quiet f) (outside f)
           quiet_set_files quiet_set_ttsConfigs quiet_set_model
           quiet_emit_allowed); done.
Qed.

Lemma quiet_log msg : steps (quiet f) (log msg).
Proof. apply (steps_log (quiet f) (outside f) quiet_emit_allowed); done. Qed.

Lemma quiet_downloadFile url dest :
  (∀ u d, f (EvDownload u d) = false) → steps (quiet f) (downloadFile E url dest).
Proof.
  intros Hd.
  apply (steps_downloadFile E (quiet f) (outside f) quiet_set_files
           quiet_emit_allowed); done.
Qed.

Lemma quiet_after_download :
  (∀ z d, f (EvExtract z d) = false) → (∀ p, f (EvUnlink p) = false) →
  steps (quiet f) (extractZip E (ZIP_PATH E) EXTRACT_PATH >>
                   unlink (ZIP_PATH E) >>
                   log "Model is ready." >>
                   let* model := voskLoader E in
                   loadTtsConfigs).
Proof.
  intros He Hu.
  apply (steps_after_download E (quiet f) (outside f) quiet_set_files
           quiet_set_ttsConfigs quiet_set_model quiet_emit_allowed); done.
Qed.

Lemma quiet_after_extract :
  (∀ p, f (EvUnlink p) = false) →
  steps (quiet f) (unlink (ZIP_PATH E) >>
                   log "Model is ready." >>
                   let* model := voskLoader E in
                   loadTtsConfigs).
Proof.
  intros Hu.
  apply (steps_after_extract E (quiet f) (outside f) quiet_set_files
           quiet_set_ttsConfigs quiet_set_model quiet_emit_allowed); done.
Qed.

End Quiet.

Ltac trace_tail :=
  unfold at_most, emit, set_files; simpl; rewrite <- ?app_assoc; simpl;
  first [ exists []; split; [by rewrite app_nil_r | simpl; lia]
        | eexists; split; [reflexivity | simpl; lia] ].

Lemma downloadFile_at_most (E : Env) (url dest : string) :
  steps (at_most is_download 1) (downloadFile E url dest).
Proof.
  intros w. unfold downloadFile, mkdir_p, modify, gets, throw, ret, bind.
  repeat case_match; simplify_eq; trace_tail.
Qed.

Lemma extractZip_at_most (E : Env) (zipPath extractTo : string) :
  steps (at_most is_extract 1) (extractZip E zipPath extractTo).
Proof.
  intros w. unfold extractZip, log, modify, gets, throw, ret, bind.
  repeat case_match; simplify_eq; trace_tail.
Qed.

Lemma ensure_at_most_one_download (E : Env) :
  steps (at_most is_download 1) (ensureVoskModelDownloaded E).
Proof.
  unfold ensureVoskModelDownloaded.
  apply (steps_bind_mixed (quiet is_download) (at_most is_download 1)).
  - apply steps_try_catch; [apply _| |intros; apply steps_ret; apply _].
    by apply quiet_model_present_block.
  - intros [|]; [intros s; apply at_most_refl|].
    apply (steps_try_catch_mixed (at_most is_download 1) (quiet is_download)).
    + unfold download_block.
      apply (steps_bind_mixed (at_most is_download 1) (quiet is_download)).
      * apply downloadFile_at_most.
      * intros _. by apply quiet_after_download.
      * done.
      * apply at_most_then_quiet.
    + intros e. by apply quiet_log.
    + done.
    + apply at_most_then_quiet.
  - apply quiet_at_most.
  - apply quiet_then_at_most.
Qed.

Lemma ensure_at_most_one_extract (E : Env) :
  steps (at_most is_extract 1) (ensureVoskModelDownloaded E).
Proof.
  unfold ensureVoskModelDownloaded.
  apply (steps_bind_mixed (quiet is_extract) (at_most is_extract 1)).
  - apply steps_try_catch; [apply _| |intros; apply steps_ret; apply _].
    by apply quiet_model_present_block.
  - intros [|]; [intros s; apply at_most_refl|].
    apply (steps_try_catch_mixed (at_most is_extract 1) (quiet is_extract)).
    + unfold download_block.
      apply (steps_bind_mixed (quiet is_extract) (at_most is_extract 1)).
      * by apply quiet_downloadFile.
      * intros _.
        apply (steps_bind_mixed (at_most is_extract 1) (quiet is_extract)).
        -- apply extractZip_at_most.
        -- intros _. by apply quiet_after_extract.
        -- done.
        -- apply at_most_then_quiet.
      * apply quiet_at_most.
      * apply quiet_then_at_most.
    + intros e. by apply quiet_log.
    + done.
    + apply at_most_then_quiet.
  - apply quiet_at_most.
  - apply quiet_then_at_most.
Qed.

Lemma voskLoader_ends (E : Env) (w : world) :
  (∃ h w', voskLoader E w = (Ok h, w')) ∨ (∃ w', voskLoader E w = (Exit 1, w')).
Proof.
  unfold voskLoader, log, modify, process_exit, gets, ret, bind.
  destruct (model w); [by eauto|].
  destruct (exists_path (MODEL_PATH E) w); simpl; by eauto.
Qed.

Lemma model_loaded (w : world) : model (loaded w) = model w.
Proof. unfold loaded. by destruct (files w !! "tts_configs") as [[|d]|]. Qed.

Lemma loadTtsConfigs_model (w w' : world) :
  loadTtsConfigs w = (Ok tt, w') → model w' = model w.
Proof.
  intros H. destruct (loadTtsConfigs_spec w) as (w'' & H' & Hw).
  rewrite H in H'. injection H' as <-.
  change (model (forget_trace w') = model w). rewrite Hw.
  change (model (loaded w) = model w). apply model_loaded.
Qed.

(** With the folder in place the first [try] block runs to its end or the
    process exits inside [voskLoader]; either way the second block is not
    entered. *)
Lemma ensure_present (E : Env) (w : world) :
  exists_path modelDir w = true →
  snd (ensureVoskModelDownloaded E w) = snd (model_present_block E w)
  ∧ ((fst (ensureVoskModelDownloaded E w) = Ok tt
      ∧ fst (model_present_block E w) = Ok true)
     ∨ fst (ensureVoskModelDownloaded E w) = Exit 1).
Proof.
  intros Hdir. unfold modelDir in Hdir.
  unfold ensureVoskModelDownloaded, model_present_block.
  unfold access, log, modify, gets, ret, try_catch, bind.
  rewrite Hdir.
  destruct (voskLoader_ends E
              (emit (EvLog "Model already exists, skipping download.") w))
    as [(h & w' & ->) | (w' & ->)]; simpl.
  - destruct (loadTtsConfigs_spec w') as (w'' & -> & _). simpl.
    split; [done | by left].
  - split; [done | by right].
Qed.

Lemma provisioned_by_tail (E : Env) (w w1 : world) :
  provisioned_by E w w1 →
  ∃ wa m wb, voskLoader E wa = (Ok m, wb) ∧ loadTtsConfigs wb = (Ok tt, w1).
Proof.
  intros [H | H].
  - unfold model_present_block in H.
    apply bind_Ok_inv in H as (_ & s1 & _ & H).
    apply bind_Ok_inv in H as (_ & s2 & _ & H).
    apply bind_Ok_inv in H as (m & s3 & Hload & H).
    apply bind_Ok_inv in H as ([] & s4 & Hcfg & H).
    injection H as <-. by exists s2, m, s3.
  - unfold download_block in H.
    apply bind_Ok_inv in H as (_ & s1 & _ & H).
    apply bind_Ok_inv in H as (_ & s2 & _ & H).
    apply bind_Ok_inv in H as (_ & s3 & _ & H).
    apply bind_Ok_inv in H as (_ & s4 & _ & H).
    apply bind_Ok_inv in H as (m & s5 & Hload & H).
    by exists s4, m, s5.
Qed.

Lemma second_call_same_state (E : Env) (w w1 : world) :
  provisioned_by E w w1 →
  exists_path modelDir w1 = true →
  ∃ w2, ensureVoskModelDownloaded E w1 = (Ok tt, w2)
        ∧ forget_trace w2 = forget_trace w1.
Proof.
  intros Hprov Hdir.
  destruct (provisioned_by_tail E w w1 Hprov) as (wa & m & wb & Hload & Hcfg).
  assert (Hm : model w1 = Some m).
  { rewrite (loadTtsConfigs_model wb w1 Hcfg). by eapply voskLoader_Ok. }
  destruct (loadTtsConfigs_twice wb w1
              (emit (EvLog "Model already exists, skipping download.") w1)
              Hcfg eq_refl) as (w2 & Hrun & Hsame).
  exists w2. split; [|exact Hsame].
  unfold modelDir in Hdir.
  unfold ensureVoskModelDownloaded, model_present_block.
  unfold access, log, modify, gets, ret, try_catch, bind.
  rewrite Hdir.
  rewrite (voskLoader_cached E
             (emit (EvLog "Model already exists, skipping download.") w1) m Hm).
  by rewrite Hrun.
Qed.

Lemma exists_path_loaded (p : string) (w : world) :
  exists_path p w = true → exists_path p (loaded w) = true.
Proof.
  unfold exists_path, loaded, with_config_dir.
  destruct (files w !! "tts_configs") as [[|d]|] eqn:Hd; simpl; try done.
  intros Hp%bool_decide_eq_true. apply bool_decide_eq_true.
  destruct (decide (p = "tts_configs")) as [->|Hne].
  - by rewrite lookup_insert_eq.
  - by rewrite lookup_insert_ne.
Qed.

Lemma voskLoader_fresh (E : Env) (w w' : world) (h : ModelHandle) :
  model w = None → voskLoader E w = (Ok h, w') →
  exists_path (MODEL_PATH E) w = true ∧ files w' = files w.
Proof.
  intros Hm. unfold voskLoader, log, modify, process_exit, gets, ret, bind.
  rewrite Hm. destruct (exists_path (MODEL_PATH E) w); simpl; [|discriminate].
  by intros [= <- <-].
Qed.

(** When the configured model is the one whose folder the manager tests
    for, a first call that downloads and succeeds leaves that folder in
    place. *)
Lemma first_download_leaves_folder (E : Env) (w w1 : world) :
  vaskmodel E = "vosk-model-en-us-0.22" →
  model w = None →
  download_block E w = (Ok tt, w1) →
  exists_path modelDir w1 = true.
Proof.
  intros Hname Hm H. unfold download_block in H.
  assert (Hf : ∀ f w, model_untouched w (set_files f w)) by done.
  assert (He : ∀ e w, all_events e → model_untouched w (emit e w)) by done.
  apply bind_Ok_inv in H as ([] & s1 & H1 & H).
  apply bind_Ok_inv in H as ([] & s2 & H2 & H).
  apply bind_Ok_inv in H as ([] & s3 & H3 & H).
  apply bind_Ok_inv in H as ([] & s4 & H4 & H).
  apply bind_Ok_inv in H as (m & s5 & Hload & Hcfg).
  assert (Hm4 : model s4 = None).
  { pose proof (steps_downloadFile E model_untouched all_events Hf He
                  (fun _ _ => I) (MODEL_URL E) (ZIP_PATH E) w) as K1.
    pose proof (steps_extractZip E model_untouched all_events Hf He
                  (fun _ => I) (fun _ _ => I) (ZIP_PATH E) EXTRACT_PATH s1) as K2.
    pose proof (steps_unlink model_untouched all_events Hf He
                  (fun _ => I) (ZIP_PATH E) s2) as K3.
    pose proof (steps_log model_untouched all_events He
                  (fun _ => I) "Model is ready." s3) as K4.
    rewrite H1 in K1. rewrite H2 in K2. rewrite H3 in K3. rewrite H4 in K4.
    destruct K1 as [K1 _], K2 as [K2 _], K3 as [K3 _], K4 as [K4 _].
    simpl in *. congruence. }
  destruct (voskLoader_fresh E s4 s5 m Hm4 Hload) as [Hdir Hfiles].
  destruct (loadTtsConfigs_spec s5) as (w1' & Hrun & Hsame).
  rewrite Hcfg in Hrun. injection Hrun as <-.
  assert (Hdir5 : exists_path modelDir s5 = true).
  { unfold exists_path in *. rewrite Hfiles.
    unfold MODEL_PATH in Hdir. rewrite Hname in Hdir. exact Hdir. }
  apply exists_path_loaded in Hdir5.
  unfold exists_path in *.
  change (files w1) with (files (forget_trace w1)). by rewrite Hsame.
Qed.

(** Where the first call leaves the folder [model/vosk-model-en-us-0.22]
    in place, a second call downloads nothing, extracts nothing and deletes
    nothing; the two calls together make at most one transfer and one
    extraction; and when the first call succeeded the second returns
    normally and leaves the state as it found it (the trace of log lines
    apart). *)
Lemma second_call_is_noop_with_folder (E : Env) (w w1 w2 : world) (r1 r2 : result unit) :
  ensureVoskModelDownloaded E w = (r1, w1) →
  ensureVoskModelDownloaded E w1 = (r2, w2) →
  exists_path modelDir w1 = true →
  quiet is_transfer_or_cleanup w1 w2
  ∧ at_most is_download 1 w w2
  ∧ at_most is_extract 1 w w2
  ∧ (provisioned_by E w w1 → r2 = Ok tt ∧ forget_trace w2 = forget_trace w1).
Proof.
  intros H1 H2 Hdir.
  assert (Hq : quiet is_transfer_or_cleanup w1 w2).
  { destruct (ensure_present E w1 Hdir) as [Hsnd _].
    rewrite H2 in Hsnd. simpl in Hsnd. rewrite Hsnd.
    by apply quiet_model_present_block. }
  split; [exact Hq|].
  split.
  { eapply at_most_then_quiet.
    - pose proof (ensure_at_most_one_download E w) as Hd. rewrite H1 in Hd. exact Hd.
    - eapply quiet_weaken; [|exact Hq].
      intros e He. unfold is_transfer_or_cleanup in He.
      apply orb_false_iff in He as [He _]. by apply orb_false_iff in He as [He _]. }
  split.
  { eapply at_most_then_quiet.
    - pose proof (ensure_at_most_one_extract E w) as Hd. rewrite H1 in Hd. exact Hd.
    - eapply quiet_weaken; [|exact Hq].
      intros e He. unfold is_transfer_or_cleanup in He.
      apply orb_false_iff in He as [He _]. by apply orb_false_iff in He as [_ He]. }
  intros Hprov.
  destruct (second_call_same_state E w w1 Hprov Hdir) as (w2' & Hrun & Hsame).
  rewrite H2 in Hrun. by injection Hrun as -> ->.
Qed.

(** C8: the folder the manager tests for is
    [model/vosk-model-en-us-0.22] whatever model is configured.  On a host
    configured for [vosk-model-small-en-us-0.15], starting from an empty
    disk, the first call succeeds: the archive is downloaded and unpacked,
    the model folder is on disk and the model is loaded.  The folder tested
    for is still missing, so the second call, which succeeds too, downloads
    the archive, unpacks it and deletes it a second time. *)
Theorem C8_other_model_is_fetched_on_every_call :
  let first := ensureVoskModelDownloaded small_model_env empty_world in
  let second := ensureVoskModelDownloaded small_model_env (snd first) in
  fst first = Ok tt
  ∧ provisioned_by small_model_env empty_world (snd first)
  ∧ exists_path (MODEL_PATH small_model_env) (snd first) = true
  ∧ model (snd first)
    = Some {| model_path := "model/vosk-model-small-en-us-0.15"; model_id := 0 |}
  ∧ exists_path modelDir (snd first) = false
  ∧ fst second = Ok tt
  ∧ trace (snd second)
    = trace (snd first)
      ++ [EvDownload
            "https://alphacephei.com/vosk/models/vosk-model-small-en-us-0.15.zip"
            "model/vosk-model-small-en-us-0.15.zip";
          EvLog "Extracting model/vosk-model-small-en-us-0.15.zip to model";
          EvExtract "model/vosk-model-small-en-us-0.15.zip" "model";
          EvLog "Extraction complete.";
          EvUnlink "model/vosk-model-small-en-us-0.15.zip";
          EvLog "Model is ready."]
  ∧ count_events is_download (trace (snd second)) = 2%nat
  ∧ count_events is_extract (trace (snd second)) = 2%nat.
Proof.
  cbv zeta. split; [by vm_compute|].
  split; [right; by vm_compute|].
  repeat split; by vm_compute.
Qed.

Lemma bind_throw_extend {S A B C} (m : M S A) (k : A → M S B) (k' : B → M S C)
    (s s' : S) (e : Error) :
  bind m k s = (Throw e, s') →
  bind m (fun a => bind (k a) k') s = (Throw e, s').
Proof.
  unfold bind. destruct (m s) as [[a|e0|c|] s0]; try done.
  - by intros ->.
  - by intros [= -> ->].
Qed.

(** C2, as amended: when the archive download or the extraction fails, the
    Recognition Model Manager logs [Failed to set up Vosk model: <message>]
    and returns normally; it loads no model, and a provisioning run that
    got this far returns normally too, so the process is not exited. *)
Theorem C2_model_failure_is_logged_and_swallowed
    (E : Env) (w w' : world) (e : Error) :
  exists_path modelDir w = false →
  bind (downloadFile E (MODEL_URL E) (ZIP_PATH E))
       (fun _ => extractZip E (ZIP_PATH E) EXTRACT_PATH) w = (Throw e, w') →
  ensureVoskModelDownloaded E w
  = (Ok tt, emit (EvLog ("Failed to set up Vosk model: " +:+ message e)) w')
  ∧ model w' = model w
  ∧ ∀ w0, bind (runtime_stages E) (fun _ => voice_stages E) w0 = (Ok tt, w) →
          setupPiper E w0
          = (Ok tt, emit (EvLog ("Failed to set up Vosk model: " +:+ message e)) w').
Proof.
  intros Hdir Hfail. unfold modelDir in Hdir.
  assert (Hrun : ensureVoskModelDownloaded E w
                 = (Ok tt, emit (EvLog ("Failed to set up Vosk model: "
                                        +:+ message e)) w')).
  { unfold ensureVoskModelDownloaded, model_present_block.
    unfold try_catch at 1. unfold bind at 1. unfold try_catch at 1.
    unfold bind at 1. unfold access at 1. unfold bind at 1, gets at 1.
    rewrite Hdir. unfold throw at 1. unfold ret at 1.
    unfold try_catch, download_block.
    by rewrite (bind_throw_extend _ _ _ _ _ _ Hfail). }
  split; [exact Hrun|]. split.
  - assert (Hs : steps model_untouched
                   (bind (downloadFile E (MODEL_URL E) (ZIP_PATH E))
                      (fun _ => extractZip E (ZIP_PATH E) EXTRACT_PATH))).
    { assert (Hf : ∀ f w, model_untouched w (set_files f w)) by done.
      assert (He : ∀ e w, all_events e → model_untouched w (emit e w)) by done.
      apply steps_bind; [apply _| |intros _].
      - by apply (steps_downloadFile E model_untouched all_events Hf He).
      - by apply (steps_extractZip E model_untouched all_events Hf He). }
    specialize (Hs w). rewrite Hfail in Hs. apply Hs.
  - intros w0 Hstages. unfold setupPiper, try_catch.
    apply bind_Ok_inv in Hstages as ([] & s1 & Hr & Hv).
    unfold bind. rewrite Hr, Hv, Hrun. done.
Qed.

Lemma C2_model_failure_witness :
  ensureVoskModelDownloaded
    (demo_env 0 ["https://alphacephei.com/vosk/models/vosk-model-en-us-0.22.zip"])
    empty_world
  = (Ok tt,
     emit (EvLog ("Failed to set up Vosk model: Download skipped due to 404: "
                  +:+ "https://alphacephei.com/vosk/models/vosk-model-en-us-0.22.zip"))
       (snd (downloadFile
               (demo_env 0 ["https://alphacephei.com/vosk/models/vosk-model-en-us-0.22.zip"])
               "https://alphacephei.com/vosk/models/vosk-model-en-us-0.22.zip"
               "model/vosk-model-en-us-0.22.zip" empty_world))).
Proof.
  apply (C2_model_failure_is_logged_and_swallowed
           (demo_env 0 ["https://alphacephei.com/vosk/models/vosk-model-en-us-0.22.zip"])
           empty_world _
           (mkError ("Download skipped due to 404: "
                     +:+ "https://alphacephei.com/vosk/models/vosk-model-en-us-0.22.zip"))).
  - vm_compute. reflexivity.
  - vm_compute. reflexivity.
Defined.

(** C2 as the specification words it: on a host where the archive answers
    404 the process would have to exit with a non-zero status; the call
    returns normally. *)
Lemma C2_model_failure_counterexample :
  ¬ model_failure_is_fatal
      (demo_env 0 ["https://alphacephei.com/vosk/models/vosk-model-en-us-0.22.zip"])
      empty_world.
Proof.
  intros H.
  destruct (H (mkError ("Download skipped due to 404: "
                        +:+ "https://alphacephei.com/vosk/models/vosk-model-en-us-0.22.zip"))
              (snd (downloadFile
                      (demo_env 0 ["https://alphacephei.com/vosk/models/vosk-model-en-us-0.22.zip"])
                      "https://alphacephei.com/vosk/models/vosk-model-en-us-0.22.zip"
                      "model/vosk-model-en-us-0.22.zip" empty_world)))
    as (code & _ & Hexit).
  - vm_compute. reflexivity.
  - vm_compute in Hexit. discriminate Hexit.
Qed.

(** ** The voice catalog *)

Lemma for_of_Throw_inv {S A} (xs : list A) (body : A → M S unit)
    (s s' : S) (e : Error) :
  for_of xs body s = (Throw e, s') →
  ∃ before x after si,
    xs = before ++ x :: after
    ∧ for_of before body s = (Ok tt, si)
    ∧ body x si = (Throw e, s').
Proof.
  revert s. induction xs as [|x xs IH]; intros s; simpl; [discriminate|].
  unfold bind. destruct (body x s) as [[[]|e0|c|] s0] eqn:Hx; try discriminate.
  - intros (before & y & after & si & -> & Hbefore & Hy)%IH.
    exists (x :: before), y, after, si. split; [done|]. split; [|exact Hy].
    simpl. unfold bind. by rewrite Hx.
  - intros [= -> ->]. exists [], x, xs, s. by rewrite Hx.
Qed.

Lemma quiet_download_pass (E : Env) (ms : list VoiceModel) :
  steps (quiet is_write) (for_of ms (downloadVoice E)).
Proof.
  apply steps_for_of; [apply _|]. intros m.
  apply (steps_downloadVoice E (quiet is_write) (outside is_write)
           (quiet_set_files is_write) (quiet_emit_allowed is_write)); done.
Qed.

Lemma quiet_runtime_stages (E : Env) :
  steps (quiet is_write) (runtime_stages E).
Proof.
  apply (steps_runtime_stages E (quiet is_write) (outside is_write)
           (quiet_set_files is_write) (quiet_emit_allowed is_write)); done.
Qed.

(** C1, as amended: a descriptor whose download fails ends the run.  The
    failure is recorded (its message is written out), the loop stops at that
    descriptor, so the descriptors after it in the catalog are not
    processed; no configuration file is written in that run, and the
    process exits with status 1. *)
Theorem C1_voice_failure_aborts_the_catalog
    (E : Env) (w w1 w2 : world) (e : Error) :
  runtime_stages E w = (Ok tt, w1) →
  for_of (VOICE_MODELS E) (downloadVoice E) w1 = (Throw e, w2) →
  setupPiper E w
  = (Exit 1, emit (EvLog ("Error setting up Piper TTS: " +:+ message e)) w2)
  ∧ quiet is_write w (snd (setupPiper E w))
  ∧ ∃ before m after wi,
      VOICE_MODELS E = before ++ m :: after
      ∧ for_of before (downloadVoice E) w1 = (Ok tt, wi)
      ∧ downloadVoice E m wi = (Throw e, w2).
Proof.
  intros Hruntime Hpass.
  assert (Hrun : setupPiper E w
                 = (Exit 1, emit (EvLog ("Error setting up Piper TTS: "
                                         +:+ message e)) w2)).
  { unfold setupPiper, voice_stages, try_catch, log, modify, process_exit.
    unfold bind at 1. rewrite Hruntime.
    unfold bind at 1. unfold bind at 1. rewrite Hpass. reflexivity. }
  split; [exact Hrun|split].
  - rewrite Hrun. cbn [snd].
    pose proof (quiet_runtime_stages E w) as Hq1. rewrite Hruntime in Hq1.
    pose proof (quiet_download_pass E (VOICE_MODELS E) w1) as Hq2.
    rewrite Hpass in Hq2.
    etrans; [exact Hq1|]. etrans; [exact Hq2|]. by apply quiet_emit.
  - by apply for_of_Throw_inv.
Qed.

Lemma C1_voice_failure_witness :
  fst (setupPiper (demo_env 0 ["https://voices.example/en_GB-alan-medium.onnx"])
         empty_world)
  = Exit 1
  ∧ ∃ before m after,
      [lessac; alan; thorsten] = before ++ m :: after
      ∧ fst (downloadVoice
               (demo_env 0 ["https://voices.example/en_GB-alan-medium.onnx"]) m
               (snd (for_of before
                       (downloadVoice
                          (demo_env 0 ["https://voices.example/en_GB-alan-medium.onnx"]))
                       (snd (runtime_stages
                               (demo_env 0 ["https://voices.example/en_GB-alan-medium.onnx"])
                               empty_world)))))
        = Throw (mkError ("Download skipped due to 404: "
                          +:+ "https://voices.example/en_GB-alan-medium.onnx")).
Proof.
  destruct (C1_voice_failure_aborts_the_catalog
              (demo_env 0 ["https://voices.example/en_GB-alan-medium.onnx"])
              empty_world
              (snd (runtime_stages
                      (demo_env 0 ["https://voices.example/en_GB-alan-medium.onnx"])
                      empty_world))
              (snd (for_of [lessac; alan; thorsten]
                      (downloadVoice
                         (demo_env 0 ["https://voices.example/en_GB-alan-medium.onnx"]))
                      (snd (runtime_stages
                              (demo_env 0 ["https://voices.example/en_GB-alan-medium.onnx"])
                              empty_world))))
              (mkError ("Download skipped due to 404: "
                        +:+ "https://voices.example/en_GB-alan-medium.onnx")))
    as (Hexit & _ & before & m & after & wi & Hcat & Hbefore & Hm).
  - vm_compute. reflexivity.
  - vm_compute. reflexivity.
  - split; [by rewrite Hexit|].
    exists before, m, after. split; [exact Hcat|].
    rewrite Hbefore. cbn [snd]. by rewrite Hm.
Defined.

(** C1 as the specification words it: with the second voice's model
    answering 404, the first and the third voice would still get their
    configuration files; neither does. *)
Lemma C1_voice_failure_counterexample :
  ¬ isolates_voice_failures
      (demo_env 0 ["https://voices.example/en_GB-alan-medium.onnx"]) empty_world.
Proof.
  intros H. destruct (H thorsten) as [c Hc].
  - simpl. set_solver.
  - reflexivity.
  - reflexivity.
  - vm_compute in Hc. discriminate Hc.
Qed.

(* ===================================================================== *)
(** * Further properties of the code *)
(* ===================================================================== *)

(** ** Names without a dash *)

Lemma split_shape (s : string) :
  ∃ hd tl, split "-" s = hd :: tl ∧ (tl = [] ↔ has_dash s = false).
Proof.
  induction s as [|c s (hd & tl & Hs & Htl)]; simpl.
  - by exists "", [].
  - destruct (Ascii.eqb c "-"); simpl.
    + exists "", (split "-" s). split; [done|]. rewrite Hs. by split.
    + rewrite Hs. by exists (String c hd), tl.
Qed.

Lemma provider_of_None (n : string) : provider_of n = None ↔ has_dash n = false.
Proof.
  unfold provider_of. destruct (split_shape n) as (hd & tl & -> & Htl).
  destruct tl as [|second tl]; simpl.
  - split; [intros _; by apply Htl | done].
  - split; [done|]. intros H. by apply Htl in H.
Qed.

(** X1: the configuration pass fails with its [TypeError] exactly on the
    catalog names that hold no dash, and then it has written nothing for
    that entry. *)
Theorem X1_config_fails_exactly_without_dash (E : Env) (m : VoiceModel) (w : world) :
  has_dash (name m) = false
  ↔ writeVoiceConfig E m w
    = (Throw (mkError "Cannot read properties of undefined (reading 'split')"), w).
Proof.
  unfold writeVoiceConfig, config_of.
  destruct (provider_of (name m)) as [p|] eqn:Hp.
  - assert (Hd : has_dash (name m) ≠ false).
    { intros H. apply provider_of_None in H. congruence. }
    split; [done|]. intros H. exfalso.
    unfold writeFile, log, modify, gets, throw, ret, bind in H.
    destruct (files w !! _) as [[|d]|]; simpl in H; discriminate H.
  - split; [done|]. intros _. by apply provider_of_None.
Qed.

(** ** The cleaning step, again *)

Lemma trimStart_clean (t : ustring) :
  (∀ c, head t = Some c → is_whitespace c = false) → trimStart t = t.
Proof.
  destruct t as [|c t]; simpl; [done|]. intros H. by rewrite (H c eq_refl).
Qed.

Lemma trimEnd_clean (t : ustring) :
  (∀ c, last t = Some c → is_whitespace c = false) → trimEnd t = t.
Proof.
  intros H. unfold trimEnd. rewrite trimStart_clean.
  - apply reverse_involutive.
  - intros c. rewrite head_reverse. apply H.
Qed.

Lemma filter_clean {A} (P : A → Prop) `{!∀ x, Decision (P x)} (l : list A) :
  Forall P l → filter P l = l.
Proof.
  induction 1 as [|x l Hx _ IH]; [done|].
  by rewrite filter_cons_True, IH.
Qed.

Lemma length_trimStart (t : ustring) : (length (trimStart t) ≤ length t)%nat.
Proof.
  induction t as [|c t IH]; simpl; [done|].
  destruct (is_whitespace c); simpl; lia.
Qed.

(** X2: on well-formed text (a string without lone surrogates) cleaning
    is idempotent: what comes out of it is well-formed again and passes
    through it unchanged.  It never returns more code points than it was
    given. *)
Theorem X2_stripEmojis_idempotent (E : Env) (t : ustring) :
  well_formed t →
  well_formed (stripEmojis E t)
  ∧ stripEmojis E (stripEmojis E t) = stripEmojis E t
  ∧ (length (stripEmojis E t) ≤ length t)%nat.
Proof.
  intros Hwf.
  destruct (trim_spec (filter (fun c => in_emoji_class E c = false) t))
    as (pre & post & Ht & _ & _ & Hhd & Hlast).
  fold (stripEmojis E t) in Ht, Hhd, Hlast.
  split; [|split].
  - assert (H : well_formed (filter (fun c => in_emoji_class E c = false) t)).
    { apply Forall_forall. intros c Hc.
      apply list_elem_of_filter in Hc as [_ Hc].
      unfold well_formed in Hwf. rewrite Forall_forall in Hwf. by apply Hwf. }
    unfold well_formed in H. rewrite Ht in H.
    apply Forall_app in H as [_ H]. by apply Forall_app in H as [H _].
  - unfold stripEmojis at 1.
    assert (Hall : Forall (fun c => in_emoji_class E c = false) (stripEmojis E t)).
    { assert (H : Forall (fun c => in_emoji_class E c = false)
                    (filter (fun c => in_emoji_class E c = false) t)).
      { apply Forall_forall. intros c Hc.
        by apply list_elem_of_filter in Hc as [? _]. }
      rewrite Ht in H. apply Forall_app in H as [_ H].
      by apply Forall_app in H as [H _]. }
    rewrite (filter_clean _ _ Hall). unfold trim.
    rewrite (trimStart_clean _ Hhd). by apply trimEnd_clean.
  - unfold stripEmojis, trim, trimEnd. rewrite length_reverse.
    etrans; [apply length_trimStart|]. rewrite length_reverse.
    etrans; [apply length_trimStart|]. apply length_filter.
Qed.

Lemma X2_stripEmojis_witness :
  well_formed (stripEmojis (demo_env 0 []) greeting)
  ∧ stripEmojis (demo_env 0 []) (stripEmojis (demo_env 0 []) greeting)
    = stripEmojis (demo_env 0 []) greeting
  ∧ (length (stripEmojis (demo_env 0 []) greeting) ≤ length greeting)%nat.
Proof.
  apply (X2_stripEmojis_idempotent (demo_env 0 []) greeting).
  apply Forall_forall. intros c Hc. vm_compute in Hc.
  repeat (apply elem_of_cons in Hc as [-> | Hc]); try reflexivity.
  by apply elem_of_nil in Hc.
Defined.

(** ** Transcription, again *)

Lemma SttV2_run (E : Env) (filePath : string) (w : world) :
  SttV2.transcribeWithVosk E filePath w
  = match voskLoader E w with
    | (Ok m, w1) =>
        (stream_verdict E filePath,
         emit EvRecognizerFree (emit (EvRecognizerNew m) w1))
    | (Throw e, w1) => (Throw e, w1)
    | (Exit c, w1) => (Exit c, w1)
    | (Hang, w1) => (Hang, w1)
    end.
Proof.
  unfold SttV2.transcribeWithVosk, stream_verdict.
  unfold new_Promise_async, try_catch, bind, lift.
  destruct (voskLoader E w) as [[m|e|c|] w1]; simpl; try reflexivity.
  destruct (stream_error (read_stream E filePath)); simpl; [reflexivity|].
  unfold try_catch, bind, lift. simpl.
  by destruct (truthy_text (top_text _)).
Qed.

Lemma quiet_voskLoader (E : Env) (f : event → bool) :
  (∀ msg, f (EvLog msg) = false) → (∀ p, f (EvModelNew p) = false) →
  steps (quiet f) (voskLoader E).
Proof.
  intros Hl Hm.
  apply (steps_voskLoader E (quiet f) (outside f)
           (quiet_set_model f) (quiet_emit_allowed f)); done.
Qed.

Lemma count_events_outside (f g : event → bool) (evs : list event) :
  (∀ e, g e = false → f e = false) →
  Forall (fun e => g e = false) evs → count_events f evs = 0%nat.
Proof.
  intros Hfg H. apply count_events_quiet.
  eapply Forall_impl; [exact H | exact Hfg].
Qed.

(** X3: the second definition of [transcribeWithVosk] always settles its
    promise or exits the process, it never leaves the caller pending; and it
    frees exactly the recognizers it creates, at most one, on the success
    path and on the stream-error path alike. *)
Theorem X3_second_definition_settles_and_frees
    (E : Env) (filePath : string) (w : world) :
  fst (SttV2.transcribeWithVosk E filePath w) ≠ Hang
  ∧ ∃ evs,
      trace (snd (SttV2.transcribeWithVosk E filePath w)) = trace w ++ evs
      ∧ count_events is_rec_new evs = count_events is_rec_free evs
      ∧ (count_events is_rec_new evs ≤ 1)%nat.
Proof.
  rewrite SttV2_run.
  pose proof (quiet_voskLoader E (fun e => is_rec_new e || is_rec_free e)%bool
                ltac:(done) ltac:(done) w) as (evs & Htr & Hq).
  assert (Hn : count_events is_rec_new evs = 0%nat).
  { eapply count_events_outside; [|exact Hq]. intros e He.
    by apply orb_false_iff in He as [He _]. }
  assert (Hf : count_events is_rec_free evs = 0%nat).
  { eapply count_events_outside; [|exact Hq]. intros e He.
    by apply orb_false_iff in He as [_ He]. }
  destruct (voskLoader_ends E w) as [(h & w1 & Hrun) | (w1 & Hrun)];
    rewrite Hrun in *; simpl in *.
  - split.
    + unfold stream_verdict. destruct (stream_error _); [done|].
      by destruct (truthy_text _).
    + exists (evs ++ [EvRecognizerNew h; EvRecognizerFree]).
      rewrite Htr, <- !app_assoc. split; [done|].
      rewrite !count_events_app, Hn, Hf. simpl. lia.
  - split; [done|]. exists evs. rewrite Hn, Hf. split; [done|]. lia.
Qed.

Lemma trim_idem (t : ustring) : trim (trim t) = trim t.
Proof.
  destruct (trim_spec t) as (_ & _ & _ & _ & _ & Hhd & Hlast).
  unfold trim at 1. rewrite (trimStart_clean _ Hhd). by apply trimEnd_clean.
Qed.

(** X4: whenever the second definition resolves with a text, that text is
    not empty and carries no white space at either end. *)
Theorem X4_transcript_is_trimmed
    (E : Env) (filePath : string) (w : world) (t : ustring) :
  fst (SttV2.transcribeWithVosk E filePath w) = Ok (Transcript t) →
  t ≠ [] ∧ trim t = t.
Proof.
  rewrite SttV2_run.
  destruct (voskLoader E w) as [[m|e|c|] w1]; simpl; try discriminate.
  unfold stream_verdict. destruct (stream_error _); [discriminate|].
  destruct (truthy_text _) eqn:Htruthy; [|discriminate].
  intros [= <-]. split.
  - intros H. rewrite H in Htruthy. discriminate Htruthy.
  - unfold top_text in *. destruct (finalResult E _) as [[[[|[[t0|]] alts]|]]|];
      try discriminate Htruthy. apply trim_idem.
Qed.

Lemma X4_transcript_witness :
  ustring_of_string "hello" ≠ []
  ∧ trim (ustring_of_string "hello") = ustring_of_string "hello".
Proof.
  apply (X4_transcript_is_trimmed (hearing_env (ustring_of_string "  hello ") [])
           "uploads/a.wav" provisioned_world).
  vm_compute. reflexivity.
Defined.

(** X5: the first definition of [transcribeWithVosk] resolves with a
    non-empty text, or leaves its promise pending, or exits the process; it
    never rejects, so no failure of the stream reaches its caller. *)
Theorem X5_first_definition_never_rejects
    (E : Env) (filePath : string) (w : world) :
  (∃ t, fst (SttV1.transcribeWithVosk E filePath w) = Ok (Transcript t) ∧ t ≠ [])
  ∨ fst (SttV1.transcribeWithVosk E filePath w) = Hang
  ∨ fst (SttV1.transcribeWithVosk E filePath w) = Exit 1.
Proof.
  unfold SttV1.transcribeWithVosk, new_Promise_async, new_Promise, bind, lift.
  destruct (voskLoader_ends E w) as [(h & w1 & ->) | (w1 & ->)]; simpl;
    [|by right; right].
  destruct (stream_error _); simpl; [by right; left|].
  destruct (finalResult E _) as [[[[|[[t|]] alts]|]]|]; simpl;
    try (by right; left).
  destruct t as [|c t]; simpl; [by right; left|].
  left. by eexists.
Qed.

(** X6: on a host where no model is loaded and the model folder is
    missing, a transcription request ends the process with status 1, in
    either definition, before any recognizer is created. *)
Theorem X6_transcription_without_model_exits
    (E : Env) (filePath : string) (w : world) :
  model w = None →
  exists_path (MODEL_PATH E) w = false →
  let w' := emit (EvLog ("Vosk model still not found after attempted download: "
                         +:+ MODEL_PATH E)) w in
  SttV1.transcribeWithVosk E filePath w = (Exit 1, w')
  ∧ SttV2.transcribeWithVosk E filePath w = (Exit 1, w').
Proof.
  intros Hm Hdir w'.
  assert (Hload : voskLoader E w = (Exit 1, w')).
  { unfold voskLoader, log, modify, process_exit, gets, ret, bind.
    by rewrite Hm, Hdir. }
  split.
  - unfold SttV1.transcribeWithVosk, new_Promise_async, bind, lift.
    by rewrite Hload.
  - by rewrite SttV2_run, Hload.
Qed.

Lemma X6_transcription_without_model_witness :
  fst (SttV1.transcribeWithVosk (demo_env 0 []) "uploads/a.wav" empty_world) = Exit 1
  ∧ fst (SttV2.transcribeWithVosk (demo_env 0 []) "uploads/a.wav" empty_world) = Exit 1.
Proof.
  destruct (X6_transcription_without_model_exits (demo_env 0 []) "uploads/a.wav"
              empty_world) as [H1 H2].
  - reflexivity.
  - vm_compute. reflexivity.
  - by rewrite H1, H2.
Defined.

(** ** How provisioning can end *)

Section Ends.
Context {S : Type} (stuck : S → Prop).









End Ends.


Section EndsOfProvisioning.
Variable E : Env.
Variable stuck : world → Prop.














End EndsOfProvisioning.





(** ** The configuration pass *)

Lemma string_length_app (a b : string) :
  String.length (a +:+ b) = (String.length a + String.length b)%nat.
Proof.
  induction a as [|c a IH]; [done|]. rewrite append_cons. simpl. by rewrite IH.
Qed.

Lemma append_inj_r (a b s : string) : a +:+ s = b +:+ s → a = b.
Proof.
  revert b. induction a as [|c a IH]; intros [|d b] H.
  - done.
  - apply (f_equal String.length) in H.
    rewrite !string_length_app in H. simpl in H. lia.
  - apply (f_equal String.length) in H.
    rewrite !string_length_app in H. simpl in H. lia.
  - rewrite !append_cons in H. injection H as -> H. f_equal. by apply IH.
Qed.

Lemma voiceConfigPath_inj (m m' : VoiceModel) :
  voiceConfigPath m = voiceConfigPath m' → name m = name m'.
Proof.
  unfold voiceConfigPath, path_join. intros H.
  apply (inj (String.app "tts_configs")) in H.
  apply (inj (String.app "/")) in H. by apply append_inj_r in H.
Qed.

Lemma config_of_name (exe : string) (m m' : VoiceModel) :
  name m = name m' → config_of exe m = config_of exe m'.
Proof. unfold config_of. by intros ->. Qed.

Lemma writeVoiceConfig_run (E : Env) (m : VoiceModel) (w : world) :
  writeVoiceConfig E m w
  = match config_of (pythonExe E) m with
    | None =>
        (Throw (mkError "Cannot read properties of undefined (reading 'split')"), w)
    | Some c =>
        match files w !! voiceConfigPath m with
        | Some Dir =>
            (Throw (mkError ("EISDIR: illegal operation on a directory, open '"
                             +:+ voiceConfigPath m +:+ "'")), w)
        | _ =>
            (Ok tt,
             emit (EvLog ("Generated TTS config: " +:+ name m +:+ ".json"))
               (emit (EvWriteFile (voiceConfigPath m))
                  (set_files (insert (voiceConfigPath m) (File (JsonDoc (JConfig c))))
                     w)))
        end
    end.
Proof.
  unfold writeVoiceConfig, voiceConfigPath.
  destruct (config_of (pythonExe E) m) as [c|]; [|reflexivity].
  unfold writeFile, log, modify, gets, throw, ret, bind.
  by destruct (files w !! _) as [[|d]|].
Qed.

(** A value under [k] survives the pass when every entry written under [k]
    is written with that value. *)
Lemma config_pass_keeps (E : Env) (ms : list VoiceModel) (w w' : world)
    (k : string) (v : node) :
  for_of ms (writeVoiceConfig E) w = (Ok tt, w') →
  files w !! k = Some v →
  (∀ m c, m ∈ ms → voiceConfigPath m = k → config_of (pythonExe E) m = Some c →
          v = File (JsonDoc (JConfig c))) →
  files w' !! k = Some v.
Proof.
  revert w. induction ms as [|m ms IH]; intros w; simpl.
  - by intros [= <-].
  - intros Hrun Hk Hsame. apply bind_Ok_inv in Hrun as ([] & w1 & Hm & Hrest).
    apply (IH w1 Hrest).
    + rewrite writeVoiceConfig_run in Hm.
      destruct (config_of (pythonExe E) m) as [c|] eqn:Hc; [|discriminate Hm].
      assert (Hw1 : files w1
                    = <[voiceConfigPath m := File (JsonDoc (JConfig c))]> (files w)).
      { destruct (files w !! voiceConfigPath m) as [[|d]|];
          try discriminate Hm; by injection Hm as <-. }
      rewrite Hw1. destruct (decide (voiceConfigPath m = k)) as [Heq|Hne].
      * rewrite Heq, lookup_insert_eq. f_equal. symmetry.
        apply (Hsame m c); [set_solver | done | done].
      * by rewrite lookup_insert_ne.
    + intros m' c' Hin. apply Hsame. set_solver.
Qed.

Lemma config_pass_writes (E : Env) (ms : list VoiceModel) (w w' : world) :
  for_of ms (writeVoiceConfig E) w = (Ok tt, w') →
  ∀ m, m ∈ ms →
    ∃ c, config_of (pythonExe E) m = Some c
         ∧ files w' !! voiceConfigPath m = Some (File (JsonDoc (JConfig c))).
Proof.
  revert w. induction ms as [|m0 ms IH]; intros w Hrun m Hin; [set_solver|].
  simpl in Hrun. apply bind_Ok_inv in Hrun as ([] & w1 & Hm0 & Hrest).
  assert (Hhead : ∃ c, config_of (pythonExe E) m0 = Some c
                       ∧ files w1 !! voiceConfigPath m0
                         = Some (File (JsonDoc (JConfig c)))).
  { rewrite writeVoiceConfig_run in Hm0.
    destruct (config_of (pythonExe E) m0) as [c|]; [|discriminate Hm0].
    exists c. split; [done|].
    destruct (files w !! voiceConfigPath m0) as [[|d]|];
      try discriminate Hm0; injection Hm0 as <-; simpl; apply lookup_insert_eq. }
  apply elem_of_cons in Hin as [-> | Hin]; [|by apply (IH w1)].
  destruct Hhead as (c & Hc & Hfile). exists c. split; [done|].
  apply (config_pass_keeps E ms w1 w' _ _ Hrest Hfile).
  intros m' c' _ Hpath Hc'. apply voiceConfigPath_inj in Hpath.
  rewrite (config_of_name _ _ _ Hpath) in Hc'. congruence.
Qed.

(** A pass over entries whose files are already in place, with the
    contents the pass would write, changes no file. *)
Lemma config_pass_again (E : Env) (ms : list VoiceModel) (w : world) :
  (∀ m, m ∈ ms →
     ∃ c, config_of (pythonExe E) m = Some c
          ∧ files w !! voiceConfigPath m = Some (File (JsonDoc (JConfig c)))) →
  ∃ w', for_of ms (writeVoiceConfig E) w = (Ok tt, w') ∧ files w' = files w.
Proof.
  revert w. induction ms as [|m ms IH]; intros w Hall; simpl.
  - by exists w.
  - destruct (Hall m) as (c & Hc & Hfile); [set_solver|].
    unfold bind. rewrite writeVoiceConfig_run, Hc, Hfile.
    destruct (IH (emit (EvLog ("Generated TTS config: " +:+ name m +:+ ".json"))
                    (emit (EvWriteFile (voiceConfigPath m))
                       (set_files (insert (voiceConfigPath m)
                                     (File (JsonDoc (JConfig c)))) w))))
      as (w' & Hrun & Hfiles).
    + intros m' Hin. simpl. rewrite (insert_id _ _ _ Hfile). apply Hall. set_solver.
    + exists w'. split; [exact Hrun|]. rewrite Hfiles. simpl.
      by apply insert_id.
Qed.

(** X8: when the configuration pass over a catalog returns, every entry of
    the catalog has its record on disk, under [tts_configs/<name>.json], with
    the fields the pass derives from the name; entries of the same name do
    not disturb one another. *)
Theorem X8_config_pass_covers_catalog
    (E : Env) (ms : list VoiceModel) (w w' : world) (m : VoiceModel) :
  for_of ms (writeVoiceConfig E) w = (Ok tt, w') →
  m ∈ ms →
  ∃ c, files w' !! config_file (name m) = Some (File (JsonDoc (JConfig c)))
       ∧ config_of (pythonExe E) m = Some c
       ∧ voice c = name m
       ∧ pythonPath c = pythonExe E
       ∧ modelPath c = onnxPath m
       ∧ configPath c = jsonPath m.
Proof.
  intros Hrun Hin.
  destruct (config_pass_writes E ms w w' Hrun m Hin) as (c & Hc & Hfile).
  exists c. split; [exact Hfile|]. split; [exact Hc|].
  unfold config_of in Hc. destruct (provider_of (name m)); [|discriminate Hc].
  by injection Hc as <-.
Qed.

Lemma X8_config_pass_witness :
  ∃ c, files (snd (for_of [lessac; alan; thorsten]
                     (writeVoiceConfig (demo_env 0 [])) provisioned_world))
         !! config_file "en_GB-alan-medium"
       = Some (File (JsonDoc (JConfig c)))
       ∧ modelPath c = "piper/models/en_GB-alan-medium.onnx".
Proof.
  destruct (X8_config_pass_covers_catalog (demo_env 0 []) [lessac; alan; thorsten]
              provisioned_world
              (snd (for_of [lessac; alan; thorsten]
                      (writeVoiceConfig (demo_env 0 [])) provisioned_world))
              alan) as (c & Hfile & _ & _ & _ & Hmodel & _).
  - vm_compute. reflexivity.
  - set_solver.
  - exists c. split; [exact Hfile | exact Hmodel].
Defined.

(** X9: the configuration pass is idempotent.  Run again over the same
    catalog, it returns normally and leaves every file as the first run
    left it. *)
Theorem X9_config_pass_idempotent
    (E : Env) (ms : list VoiceModel) (w w1 : world) :
  for_of ms (writeVoiceConfig E) w = (Ok tt, w1) →
  ∃ w2, for_of ms (writeVoiceConfig E) w1 = (Ok tt, w2) ∧ files w2 = files w1.
Proof.
  intros Hrun. apply config_pass_again. by apply (config_pass_writes E ms w w1).
Qed.

Lemma X9_config_pass_witness :
  ∃ w2,
    for_of [lessac; alan; thorsten] (writeVoiceConfig (demo_env 0 []))
      (snd (for_of [lessac; alan; thorsten]
              (writeVoiceConfig (demo_env 0 [])) empty_world))
    = (Ok tt, w2)
    ∧ files w2
      = files (snd (for_of [lessac; alan; thorsten]
                      (writeVoiceConfig (demo_env 0 [])) empty_world)).
Proof.
  apply (X9_config_pass_idempotent (demo_env 0 []) [lessac; alan; thorsten]
           empty_world).
  vm_compute. reflexivity.
Defined.

(** ** From provisioning to a request *)




(** X12: synthesis never consults the map [ttsConfigs] that
    [loadTtsConfigs] fills.  Whatever that map holds, a call to
    [synthesizeWithPiper] ends the same way, makes the same changes and
    leaves the map as it was. *)
Theorem X12_synthesis_ignores_ttsConfigs
    (E : Env) (t : ustring) (voice : option string) (w : world)
    (f : gmap string json_value → gmap string json_value) :
  synthesizeWithPiper E t voice (set_ttsConfigs f w)
  = (fst (synthesizeWithPiper E t voice w),
     set_ttsConfigs f (snd (synthesizeWithPiper E t voice w))).
Proof.
  unfold synthesizeWithPiper, fresh_upload_path, generateTts, require_config.
  unfold new_Promise_async, new_Promise, resolve, reject, settle, lift,
    log, modify, gets, throw, ret, bind.
  simpl.
  destruct (require_cache w !! _) as [[|c]|]; simpl.
  - reflexivity.
  - destruct (piper E _ _ _) as [code|e]; simpl; [|reflexivity].
    by destruct (code =? 0).
  - destruct (files w !! _) as [[|[|[|c]]]|]; simpl; try reflexivity.
    destruct (piper E _ _ _) as [code|e]; simpl; [|reflexivity].
    by destruct (code =? 0).
Qed.

(** ** Downloads *)

Lemma before_last_slash_None (f : string) :
  has_slash f = false → before_last_slash f = None.
Proof.
  induction f as [|c f IH]; simpl; [done|].
  intros H. apply orb_false_iff in H as [Hc Hf]. by rewrite (IH Hf), Hc.
Qed.

Lemma before_last_slash_join (d f : string) :
  has_slash f = false → before_last_slash (d +:+ String "/" f) = Some d.
Proof.
  intros Hf. induction d as [|c d IH].
  - change ("" +:+ String "/" f) with (String "/" f). simpl.
    by rewrite (before_last_slash_None f Hf).
  - rewrite append_cons. simpl. by rewrite IH.
Qed.

Lemma has_slash_app (a b : string) :
  has_slash (a +:+ b) = (has_slash a || has_slash b)%bool.
Proof.
  induction a as [|c a IH]; [done|].
  rewrite append_cons. simpl. rewrite IH. by rewrite orb_assoc.
Qed.

Lemma path_dirname_join (d f : string) :
  d ≠ "" → has_slash f = false → path_dirname (path_join d f) = d.
Proof.
  intros Hd Hf. unfold path_dirname, path_join.
  change (d +:+ "/" +:+ f) with (d +:+ String "/" f).
  rewrite (before_last_slash_join d f Hf). by destruct d.
Qed.

Lemma path_join_longer (d f : string) : path_join d f ≠ d.
Proof.
  unfold path_join. intros H. apply (f_equal String.length) in H.
  rewrite !string_length_app in H. simpl in H. lia.
Qed.

Lemma downloadFile_run (E : Env) (url dest : string) (w : world) :
  (∀ d, files w !! path_dirname dest ≠ Some (File d)) →
  files w !! dest = None →
  dest ≠ path_dirname dest →
  downloadFile E url dest w
  = (download_verdict E url,
     emit (EvDownload url dest)
       (set_files (insert dest (File Blob))
          (snd (mkdir_p (path_dirname dest) w)))).
Proof.
  intros Hdir Hdest Hne.
  unfold downloadFile, download_verdict, mkdir_p, modify, gets, throw, ret, bind.
  destruct (files w !! path_dirname dest) as [[|d]|] eqn:Hd; simpl.
  - rewrite Hdest.
    destruct (https_get E url) as [s [msg|]|msg]; simpl; repeat case_match; done.
  - by destruct (Hdir d).
  - rewrite lookup_insert_ne, Hdest by done.
    destruct (https_get E url) as [s [msg|]|msg]; simpl; repeat case_match; done.
Qed.

Lemma download_verdict_failure (E : Env) (url : string) :
  https_get E url ≠ HttpResponse 200 None →
  ∃ e, download_verdict E url = Throw e.
Proof.
  unfold download_verdict. intros H.
  destruct (https_get E url) as [s [msg|]|msg]; simpl;
    repeat case_match; try by eexists.
  exfalso. apply H. f_equal.
  match goal with Hs : negb (s =? 200) = false |- _ =>
    apply negb_false_iff, Z.eqb_eq in Hs; exact Hs end.
Qed.

Lemma downloadFile_trace (E : Env) (url dest : string) (w : world) :
  trace (snd (downloadFile E url dest w)) = trace w
  ∨ trace (snd (downloadFile E url dest w)) = trace w ++ [EvDownload url dest].
Proof.
  unfold downloadFile, mkdir_p, modify, gets, throw, ret, bind.
  repeat case_match; simplify_eq; simpl; auto.
Qed.

Lemma onnx_is_not_json (m : VoiceModel) : jsonPath m ≠ onnxPath m.
Proof.
  unfold jsonPath, onnxPath, path_join. intros H.
  apply (inj (String.app MODELS_DIR)) in H.
  apply (inj (String.app "/")) in H.
  apply (inj (String.app (name m))) in H. discriminate H.
Qed.

(** X13: a failed download is not retried.  [downloadFile] opens its
    destination before it sends the request, so when the model of a voice
    cannot be downloaded the loop throws and an empty file stays behind; on
    the next run that file passes the existence test and no request for the
    model is made. *)
Theorem X13_failed_voice_download_is_not_retried
    (E : Env) (m : VoiceModel) (w : world) :
  has_slash (name m) = false →
  files w !! MODELS_DIR = Some Dir →
  files w !! onnxPath m = None →
  https_get E (onnx m) ≠ HttpResponse 200 None →
  ∃ e w1,
    downloadVoice E m w = (Throw e, w1)
    ∧ files w1 !! onnxPath m = Some (File Blob)
    ∧ quiet (is_download_to (onnxPath m)) w1 (snd (downloadVoice E m w1)).
Proof.
  intros Hname Hdir Hfile Hhttp.
  assert (Hslash : has_slash (name m +:+ ".onnx") = false)
    by (rewrite has_slash_app, Hname; done).
  assert (Hdn : path_dirname (onnxPath m) = MODELS_DIR)
    by (by apply path_dirname_join).
  destruct (download_verdict_failure E (onnx m) Hhttp) as [e He].
  exists e. eexists. split; [|split].
  - unfold downloadVoice, fileExists, exists_path, log, modify, gets, ret, bind.
    fold (onnxPath m). rewrite Hfile. simpl.
    rewrite downloadFile_run, He; simpl.
    + reflexivity.
    + intros d. by rewrite Hdn, Hdir.
    + exact Hfile.
    + rewrite Hdn. apply path_join_longer.
  - simpl. apply lookup_insert_eq.
  - match goal with |- quiet _ ?w1 _ => set (s := w1) end.
    assert (Hex : exists_path (onnxPath m) s = true).
    { unfold exists_path. apply bool_decide_eq_true. subst s. simpl.
      rewrite lookup_insert_eq. by eexists. }
    unfold downloadVoice, fileExists, log, modify, gets, ret, bind.
    fold (onnxPath m) (jsonPath m). rewrite Hex. simpl.
    destruct (exists_path (jsonPath m) s); simpl; [by apply quiet_unchanged|].
    match goal with |- context [downloadFile E ?u ?d ?s0] =>
      destruct (downloadFile_trace E u d s0) as [Ht | Ht] end.
    + exists [EvLog ("Downloading voice model metadata " +:+ name m +:+ ".onnx.json...")].
      split; [by rewrite Ht | by repeat constructor].
    + exists [EvLog ("Downloading voice model metadata " +:+ name m +:+ ".onnx.json...");
              EvDownload (json m) (jsonPath m)].
      split; [rewrite Ht; simpl; by rewrite <- app_assoc|].
      constructor; [done|]. constructor; [|constructor].
      unfold is_download_to. apply String.eqb_neq. apply onnx_is_not_json.
Qed.

Lemma X13_failed_voice_download_witness :
  ∃ e w1,
    downloadVoice (demo_env 0 ["https://voices.example/en_GB-alan-medium.onnx"]) alan
      (set_files (insert MODELS_DIR Dir) empty_world) = (Throw e, w1)
    ∧ files w1 !! onnxPath alan = Some (File Blob)
    ∧ quiet (is_download_to (onnxPath alan)) w1
        (snd (downloadVoice
                (demo_env 0 ["https://voices.example/en_GB-alan-medium.onnx"])
                alan w1)).
Proof.
  apply (X13_failed_voice_download_is_not_retried
           (demo_env 0 ["https://voices.example/en_GB-alan-medium.onnx"]) alan
           (set_files (insert MODELS_DIR Dir) empty_world)).
  - reflexivity.
  - reflexivity.
  - reflexivity.
  - vm_compute. discriminate.
Defined.

(** X14: the download pass is idempotent.  Over a catalog whose model and
    metadata files are all in place it sends no request, writes no line and
    changes nothing at all. *)
Theorem X14_download_pass_skips_what_is_there
    (E : Env) (ms : list VoiceModel) (w : world) :
  (∀ m, m ∈ ms →
     exists_path (onnxPath m) w = true ∧ exists_path (jsonPath m) w = true) →
  for_of ms (downloadVoice E) w = (Ok tt, w).
Proof.
  induction ms as [|m ms IH]; intros Hall; simpl; [done|].
  assert (Hm : m ∈ m :: ms) by (by apply elem_of_cons; left).
  destruct (Hall m Hm) as [Ho Hj].
  unfold bind. unfold downloadVoice at 1.
  unfold fileExists, gets, ret, bind. fold (onnxPath m) (jsonPath m).
  rewrite Ho. simpl. rewrite Hj. simpl.
  apply IH. intros m' Hin. apply Hall. by apply elem_of_cons; right.
Qed.

Lemma X14_download_pass_witness :
  for_of [lessac; alan; thorsten] (downloadVoice (demo_env 0 []))
    (snd (setupPiper (demo_env 0 []) empty_world))
  = (Ok tt, snd (setupPiper (demo_env 0 []) empty_world)).
Proof.
  apply (X14_download_pass_skips_what_is_there (demo_env 0 [])).
  intros m Hm.
  repeat (apply elem_of_cons in Hm as [-> | Hm]);
    [split; vm_compute; reflexivity .. | by apply elem_of_nil in Hm].
Defined.

Lemma add_paths_keeps (ps : list (string * node)) (fs : gmap string node)
    (p : string) :
  is_Some (fs !! p) → is_Some (add_paths ps fs !! p).
Proof.
  unfold add_paths. revert fs.
  induction ps as [|[q n] ps IH]; intros fs H; simpl; [done|].
  apply IH. destruct (decide (q = p)) as [->|Hne].
  - rewrite lookup_insert_eq. by eexists.
  - by rewrite lookup_insert_ne.
Qed.

Lemma add_paths_has (ps : list (string * node)) (fs : gmap string node)
    (p : string) (n : node) :
  (p, n) ∈ ps → is_Some (add_paths ps fs !! p).
Proof.
  revert fs. induction ps as [|[q n'] ps IH]; intros fs H; [set_solver|].
  apply elem_of_cons in H as [[= <- <-] | H].
  - change (is_Some (add_paths ps (<[p := n]> fs) !! p)).
    apply add_paths_keeps. rewrite lookup_insert_eq. by eexists.
  - change (is_Some (add_paths ps (<[q := n']> fs) !! p)). by apply IH.
Qed.

(** X15: a failed extraction is not cleaned up.  When the archive arrives
    and the extraction breaks off, the manager logs the failure and returns;
    the archive and every entry extracted so far stay on disk, and no model
    is loaded. *)
Theorem X15_failed_extraction_leaves_its_files
    (E : Env) (w : world) (msg : string) :
  has_slash (vaskmodel E) = false →
  exists_path modelDir w = false →
  (∀ d, files w !! "model" ≠ Some (File d)) →
  files w !! ZIP_PATH E = None →
  https_get E (MODEL_URL E) = HttpResponse 200 None →
  unzip_error (unzip E (ZIP_PATH E)) = Some msg →
  ∃ w',
    ensureVoskModelDownloaded E w = (Ok tt, w')
    ∧ exists_path (ZIP_PATH E) w' = true
    ∧ (∀ p n, (p, n) ∈ extracted (unzip E (ZIP_PATH E)) → exists_path p w' = true)
    ∧ model w' = model w
    ∧ last (trace w') = Some (EvLog ("Failed to set up Vosk model: " +:+ msg)).
Proof.
  intros Hname Hdir Hmodel Hzip Hhttp Hunzip.
  assert (Hdn : path_dirname (ZIP_PATH E) = "model").
  { apply (path_dirname_join "model" (vaskmodel E +:+ ".zip")); [done|].
    by rewrite has_slash_app, Hname. }
  assert (Hdl : downloadFile E (MODEL_URL E) (ZIP_PATH E) w
                = (Ok tt,
                   emit (EvDownload (MODEL_URL E) (ZIP_PATH E))
                     (set_files (insert (ZIP_PATH E) (File Blob))
                        (snd (mkdir_p "model" w))))).
  { rewrite downloadFile_run, Hdn.
    - unfold download_verdict. by rewrite Hhttp.
    - by rewrite Hdn.
    - exact Hzip.
    - rewrite Hdn. apply (path_join_longer "model" (vaskmodel E +:+ ".zip")). }
  set (w1 := emit (EvDownload (MODEL_URL E) (ZIP_PATH E))
               (set_files (insert (ZIP_PATH E) (File Blob))
                  (snd (mkdir_p "model" w)))) in *.
  assert (Hz1 : exists_path (ZIP_PATH E) w1 = true).
  { apply bool_decide_eq_true. subst w1. simpl.
    rewrite lookup_insert_eq. by eexists. }
  assert (Hex : extractZip E (ZIP_PATH E) EXTRACT_PATH w1
                = (Throw (mkError msg),
                   emit (EvExtract (ZIP_PATH E) EXTRACT_PATH)
                     (set_files (add_paths (extracted (unzip E (ZIP_PATH E))))
                        (emit (EvLog ("Extracting " +:+ ZIP_PATH E +:+ " to "
                                      +:+ EXTRACT_PATH)) w1)))).
  { unfold extractZip, log, modify, gets, throw, ret, bind.
    change (exists_path (ZIP_PATH E)
              (emit (EvLog ("Extracting " +:+ ZIP_PATH E +:+ " to "
                            +:+ EXTRACT_PATH)) w1))
      with (exists_path (ZIP_PATH E) w1).
    rewrite Hz1. simpl. by rewrite Hunzip. }
  eexists. split; [|split; [|split; [|split]]].
  - unfold modelDir in Hdir.
    unfold ensureVoskModelDownloaded, model_present_block.
    unfold try_catch at 1. unfold bind at 1. unfold try_catch at 1.
    unfold bind at 1. unfold access at 1. unfold bind at 1, gets at 1.
    rewrite Hdir. unfold throw at 1. unfold ret at 1.
    unfold try_catch, download_block. unfold bind at 1. rewrite Hdl.
    unfold bind at 1. rewrite Hex. reflexivity.
  - apply bool_decide_eq_true. simpl. apply add_paths_keeps.
    rewrite lookup_insert_eq. by eexists.
  - intros p n Hin. apply bool_decide_eq_true. simpl.
    by apply (add_paths_has _ _ p n).
  - simpl. unfold mkdir_p, modify, gets, throw, ret, bind.
    by destruct (files w !! "model") as [[|d]|].
  - simpl. by rewrite last_snoc.
Qed.

Lemma X15_failed_extraction_witness :
  ∃ w',
    ensureVoskModelDownloaded broken_archive_env empty_world = (Ok tt, w')
    ∧ exists_path "model/vosk-model-en-us-0.22.zip" w' = true
    ∧ exists_path "model/vosk-model-en-us-0.22/am" w' = true
    ∧ model w' = None.
Proof.
  destruct (X15_failed_extraction_leaves_its_files broken_archive_env empty_world
              "invalid signature")
    as (w' & Hrun & Hzip & Hparts & Hmodel & _).
  - reflexivity.
  - vm_compute. reflexivity.
  - intros d. vm_compute. discriminate.
  - vm_compute. reflexivity.
  - reflexivity.
  - reflexivity.
  - exists w'. split; [exact Hrun|]. split; [exact Hzip|]. split; [|exact Hmodel].
    apply (Hparts _ Dir). simpl. set_solver.
Defined.

(** ** Output paths *)

Global Instance uuids_grow_preorder : PreOrder uuids_grow.
Proof.
  split.
  - intros w. unfold uuids_grow. lia.
  - intros x y z. unfold uuids_grow. lia.
Qed.

Section UuidsGrow.
Variable E : Env.

Lemma uuids_grow_unchanged (w w' : world) :
  uuids_drawn w' = uuids_drawn w → uuids_grow w w'.
Proof. unfold uuids_grow. lia. Qed.

Lemma uuids_grow_perform (c : call) : steps uuids_grow (perform E c).
Proof.
  assert (Hf : ∀ f w, uuids_grow w (set_files f w))
    by (intros; by apply uuids_grow_unchanged).
  assert (Hc : ∀ f w, uuids_grow w (set_ttsConfigs f w))
    by (intros; by apply uuids_grow_unchanged).
  assert (Hr : ∀ f w, uuids_grow w (set_require_cache f w))
    by (intros; by apply uuids_grow_unchanged).
  assert (Hu : ∀ w, uuids_grow w (draw_uuid w))
    by (intros w; unfold uuids_grow; simpl; lia).
  assert (Hm : ∀ m w, model w = None → uuids_grow w (set_model m w))
    by (intros; by apply uuids_grow_unchanged).
  assert (He : ∀ e w, all_events e → uuids_grow w (emit e w))
    by (intros; by apply uuids_grow_unchanged).
  destruct c; simpl.
  - apply steps_bind; [apply _| |intros; apply steps_ret; apply _].
    apply (steps_voskLoader E uuids_grow all_events Hm He); done.
  - apply steps_bind; [apply _| |intros; apply steps_ret; apply _].
    apply (steps_transcribe_V1 E uuids_grow all_events Hm He); done.
  - apply steps_bind; [apply _| |intros; apply steps_ret; apply _].
    apply (steps_transcribe_V2 E uuids_grow all_events Hm He); done.
  - apply steps_bind; [apply _| |intros; apply steps_ret; apply _].
    apply (steps_synthesizeWithPiper E uuids_grow all_events Hr Hu He); done.
  - apply (steps_loadTtsConfigs uuids_grow all_events Hf Hc He); done.
  - apply (steps_ensureVoskModelDownloaded E uuids_grow all_events Hf Hc Hm He); done.
  - apply (steps_setupPiper E uuids_grow all_events Hf Hc Hm He); done.
Qed.

Lemma uuids_grow_run_calls (cs : list call) (w : world) :
  uuids_grow w (run_calls E cs w).
Proof.
  revert w. induction cs as [|c cs IH]; intros w; simpl; [reflexivity|].
  pose proof (uuids_grow_perform c w) as Hc.
  destruct (perform E c w) as [[[]|e|code|] w']; simpl in Hc; try done;
    (etrans; [exact Hc | apply IH]).
Qed.

Lemma generateTts_path (t : ustring) (provider : option string)
    (f p : string) (w : world) :
  fst (generateTts E t provider (Some f) w) = Ok (Some p) → p = f.
Proof.
  unfold generateTts. cbn [default]. unfold bind at 1, ret at 1.
  unfold bind at 1.
  destruct (require_config _ w) as [[[|cfg]|e|c|] w1]; try discriminate.
  unfold new_Promise, lift, resolve, reject, settle, modify, bind, ret.
  simpl. destruct (piper E _ _ _) as [code|e]; simpl; [|discriminate].
  destruct (code =? 0); simpl; [|discriminate]. by intros [= ->].
Qed.

Lemma synthesize_path (t : ustring) (voice : option string) (w : world)
    (p : string) :
  fst (synthesizeWithPiper E t voice w) = Ok (Some p) →
  p = next_upload E w
  ∧ (uuids_drawn w < uuids_drawn (snd (synthesizeWithPiper E t voice w)))%nat.
Proof.
  assert (Hr : ∀ f w, uuids_grow w (set_require_cache f w))
    by (intros; by apply uuids_grow_unchanged).
  assert (Hu : ∀ w, uuids_grow w (draw_uuid w))
    by (intros w0; unfold uuids_grow; simpl; lia).
  assert (He : ∀ e w, all_events e → uuids_grow w (emit e w))
    by (intros; by apply uuids_grow_unchanged).
  pose proof (steps_generateTts E uuids_grow all_events Hr Hu He
                (fun _ => I) (fun _ _ _ => I) (stripEmojis E t)
                (Some (or_string (default "" voice) "en_US-lessac-medium"))
                (Some (next_upload E w)) (draw_uuid w)) as Hgrow.
  unfold synthesizeWithPiper, fresh_upload_path, gets, modify, ret.
  unfold new_Promise_async, lift, resolve, settle, log, modify, bind. simpl.
  fold (next_upload E w).
  destruct (generateTts E _ _ (Some (next_upload E w)) (draw_uuid w))
    as [[a|e|c|] w1] eqn:Hgen; simpl in *; try discriminate.
  intros [= ->]. split.
  - apply (f_equal fst) in Hgen. simpl in Hgen.
    by apply generateTts_path in Hgen.
  - unfold uuids_grow in Hgrow. simpl in Hgrow. lia.
Qed.

End UuidsGrow.

(** X16: output paths do not collide.  With a UUID source that never
    repeats itself, two calls of [synthesizeWithPiper] that both resolve with
    a path resolve with different paths, whatever calls are made in
    between. *)
Theorem X16_output_paths_are_fresh
    (E : Env) (cs : list call) (w : world)
    (t1 t2 : ustring) (v1 v2 : option string) (p1 p2 : string) :
  (∀ i j, i ≠ j → randomUUID E i ≠ randomUUID E j) →
  fst (synthesizeWithPiper E t1 v1 w) = Ok (Some p1) →
  fst (synthesizeWithPiper E t2 v2
         (run_calls E cs (snd (synthesizeWithPiper E t1 v1 w)))) = Ok (Some p2) →
  p1 ≠ p2.
Proof.
  intros Hinj H1 H2.
  apply synthesize_path in H1 as [-> Hlt].
  apply synthesize_path in H2 as [-> _].
  pose proof (uuids_grow_run_calls E cs (snd (synthesizeWithPiper E t1 v1 w))) as Hg.
  unfold uuids_grow in Hg. unfold next_upload. intros Heq.
  apply (inj (String.app "uploads/")) in Heq. apply append_inj_r in Heq.
  revert Heq. apply Hinj. lia.
Qed.

Lemma X16_output_paths_witness :
  "uploads/uuid-0.wav" ≠ "uploads/uuid-1.wav".
Proof.
  apply (X16_output_paths_are_fresh (demo_env 0 [])
           [CallVoskLoader; CallTranscribeV2 "uploads/a.wav"] provisioned_world
           (ustring_of_string "one") (ustring_of_string "two")
           (Some "en_US-lessac-medium") None).
  - intros i j Hij Heq. apply Hij. simpl in Heq.
    apply (inj (String.app "uuid-")) in Heq. by apply (inj pretty) in Heq.
  - vm_compute. reflexivity.
  - vm_compute. reflexivity.
Defined.

(** ** The two routes *)

Lemma files_emit (e : event) (w : world) : files (emit e w) = files w.
Proof. done. Qed.

Lemma remove_gone (p : string) (w : world) :
  files (snd (remove p w)) !! p = None.
Proof.
  unfold remove, modify, set_files. simpl.
  apply map_lookup_filter_None. right. intros x _ [H _]. by apply H.
Qed.

Lemma remove_others (p q : string) (w : world) :
  q ≠ p → strip_prefix (p +:+ "/") q = None →
  files (snd (remove p w)) !! q = files w !! q.
Proof.
  intros Hq Hpre. unfold remove, modify, set_files. simpl.
  destruct (files w !! q) as [x|] eqn:Hx.
  - by apply map_lookup_filter_Some.
  - apply map_lookup_filter_None. by left.
Qed.

Lemma voskLoader_files (E : Env) (w : world) :
  files (snd (voskLoader E w)) = files w.
Proof.
  unfold voskLoader, log, modify, process_exit, gets, ret, bind.
  destruct (model w); [done|].
  by destruct (exists_path (MODEL_PATH E) w).
Qed.

(** X17: the [/stt] handler over the second definition of
    [transcribeWithVosk].  A request that carries an upload always comes to
    an end: when the stream is read it is answered with the transcript and
    the upload is deleted, every other file staying as it was; when the
    stream fails it is answered 500 and the upload stays on disk; when the
    model is missing the process exits and the upload stays too.  A request
    without an upload is never answered, and no file is touched. *)
Theorem X17_stt_route_deletes_upload_only_on_success
    (E : Env) (file : option string) (w : world) :
  let out := stt_route (SttV2.transcribeWithVosk E) file w in
  (∃ filePath t,
      file = Some filePath
      ∧ fst out = Ok (Transcript200 t)
      ∧ stream_error (read_stream E filePath) = None
      ∧ files (snd out) !! filePath = None
      ∧ ∀ q, q ≠ filePath → strip_prefix (filePath +:+ "/") q = None →
             files (snd out) !! q = files w !! q)
  ∨ (∃ filePath,
        file = Some filePath
        ∧ fst out = Ok (Status500 "STT error")
        ∧ stream_error (read_stream E filePath) ≠ None
        ∧ files (snd out) = files w)
  ∨ (∃ filePath,
        file = Some filePath ∧ fst out = Exit 1 ∧ files (snd out) = files w)
  ∨ (file = None ∧ fst out = Hang ∧ files (snd out) = files w).
Proof.
  intros out. subst out. destruct file as [filePath|];
    [|by right; right; right].
  unfold stt_route, try_catch, bind.
  rewrite SttV2_run. pose proof (voskLoader_files E w) as Hfiles.
  destruct (voskLoader_ends E w) as [(h & w1 & Hrun) | (w1 & Hrun)];
    rewrite Hrun in *; simpl in Hfiles;
    [|right; right; left; by exists filePath].
  unfold stream_verdict.
  destruct (stream_error (read_stream E filePath)) as [err|] eqn:Herr.
  - right; left. exists filePath. simpl. by rewrite Herr.
  - left. exists filePath.
    set (w2 := emit EvRecognizerFree (emit (EvRecognizerNew h) w1)).
    assert (Hw2 : files w2 = files w) by done.
    destruct (truthy_text _); simpl; eexists; (split; [reflexivity|]);
      (split; [reflexivity|]);
      (split; [done|]); (split; [apply (remove_gone filePath w2)|]);
      intros q Hq Hpre;
      rewrite <- Hw2; by apply (remove_others filePath q w2).
Qed.

(** X18: over the first definition of [transcribeWithVosk] the handler's
    [catch] branch is never reached.  A request is answered with a non-empty
    transcript, the upload then being deleted; or it is never answered, or
    the process exits, and in both cases no file is touched, so that an
    upload stays on disk.  No request is answered with 500. *)
Theorem X18_stt_route_first_definition_never_answers_500
    (E : Env) (file : option string) (w : world) :
  let out := stt_route (SttV1.transcribeWithVosk E) file w in
  (∃ filePath t,
      file = Some filePath
      ∧ fst out = Ok (Transcript200 (Transcript t)) ∧ t ≠ []
      ∧ files (snd out) !! filePath = None)
  ∨ ((fst out = Hang ∨ fst out = Exit 1) ∧ files (snd out) = files w).
Proof.
  intros out. subst out. destruct file as [filePath|];
    [|right; split; [by left|done]].
  unfold stt_route, try_catch.
  unfold bind at 1.
  unfold SttV1.transcribeWithVosk, new_Promise_async, new_Promise, bind, lift.
  pose proof (voskLoader_files E w) as Hfiles.
  destruct (voskLoader_ends E w) as [(h & w1 & Hrun) | (w1 & Hrun)];
    rewrite Hrun in *; simpl in Hfiles; simpl; [|right; split; [by right|done]].
  destruct (stream_error _); simpl; [right; split; [by left|done]|].
  destruct (finalResult E _) as [[[[|[[t|]] alts]|]]|]; simpl;
    try (right; split; [by left|done]).
  destruct t as [|c t]; simpl; [right; split; [by left|done]|].
  left. exists filePath. eexists. split; [reflexivity|].
  split; [reflexivity|]. split; [done|].
  apply (remove_gone filePath).
Qed.

Lemma synthesize_outcomes (E : Env) (t : ustring) (voice : option string)
    (w : world) :
  fst (synthesizeWithPiper E t voice w) = Ok (Some (next_upload E w))
  ∨ (fst (synthesizeWithPiper E t voice w) = Ok None
     ∧ fst (require_config (effective_voice voice) (draw_uuid w)) = Ok JFalsy)
  ∨ fst (synthesizeWithPiper E t voice w) = Hang.
Proof.
  unfold synthesizeWithPiper, fresh_upload_path, gets, modify, ret.
  unfold new_Promise_async, lift, generateTts. fold (effective_voice voice).
  cbn [default]. unfold bind, ret. simpl. fold (next_upload E w).
  unfold require_config, gets, modify, throw, ret, bind. simpl.
  destruct (require_cache w !! _) as [[|cfg]|]; simpl.
  - right; left. done.
  - unfold new_Promise, lift, resolve, reject, settle, modify, bind, ret. simpl.
    destruct (piper E _ _ _) as [code|e]; simpl; [|by right; right].
    destruct (code =? 0); simpl; [by left|by right; right].
  - destruct (files w !! _) as [[|[|[|cfg]]]|]; simpl;
      try (by right; right); try (by right; left).
    unfold new_Promise, lift, resolve, reject, settle, modify, bind, ret. simpl.
    destruct (piper E _ _ _) as [code|e]; simpl; [|by right; right].
    destruct (code =? 0); simpl; [by left|by right; right].
Qed.

(** X19: the [/tts] handler answers 400, touching nothing, exactly when
    [text] or [voice] is missing or empty.  Otherwise it sends the file at
    the fresh path of this call, which is gone from disk afterwards; or it
    answers 500, which happens only when the document required for the voice
    is a falsy value; or it never answers.  It neither throws nor ends the
    process. *)
Theorem X19_tts_route_answers
    (E : Env) (text : option ustring) (voice : option string) (w : world) :
  let out := tts_route E text voice w in
  ((default [] text = [] ∨ default "" voice = "")
   ∧ out = (Ok (Status400 "Missing text or voice"), w))
  ∨ (default [] text ≠ [] ∧ default "" voice ≠ ""
     ∧ ((fst out = Ok (SendFile (path_resolve E (next_upload E w)))
         ∧ files (snd out) !! next_upload E w = None)
        ∨ (fst out = Ok (Status500 "TTS error")
           ∧ fst (require_config (effective_voice voice) (draw_uuid w)) = Ok JFalsy)
        ∨ fst out = Hang)).
Proof.
  intros out. subst out. unfold tts_route.
  destruct (default [] text) as [|c t] eqn:Ht; simpl; [left; split; [by left|done]|].
  destruct (default "" voice) as [|a v] eqn:Hv; simpl; [left; split; [by right|done]|].
  right. split; [done|]. split; [done|].
  unfold try_catch, bind.
  destruct (synthesize_outcomes E (c :: t) voice w) as [H | [[H Hcfg] | H]];
    destruct (synthesizeWithPiper E (c :: t) voice w) as [r w1];
    simpl in H; subst r; simpl.
  - left. split; [done|]. apply (remove_gone (next_upload E w)).
  - right; left. done.
  - right; right. done.
Qed.

(** ** Starting again on a provisioned host *)

Global Instance offline_preorder : PreOrder offline.
Proof.
  split.
  - intros w. split; [by intros p | reflexivity].
  - intros x y z [Hg1 Hq1] [Hg2 Hq2]. split; [|by etrans].
    intros p Hp. by apply Hg2, Hg1.
Qed.

Section Offline.
Variable E : Env.

Ltac one_event :=
  eexists [_]; split; [reflexivity | by repeat constructor].

Lemma exists_path_insert (p q : string) (n : node) (fs : gmap string node)
    (w : world) :
  exists_path p w = true →
  exists_path p (set_files (insert q n) w) = true.
Proof.
  unfold exists_path, set_files. simpl. intros H.
  apply bool_decide_eq_true in H. apply bool_decide_eq_true.
  destruct (decide (q = p)) as [->|Hne].
  - rewrite lookup_insert_eq. by eexists.
  - by rewrite lookup_insert_ne.
Qed.

Lemma offline_log (msg : string) : steps offline (log msg).
Proof. intros w. split; [by intros p | one_event]. Qed.

Lemma offline_runCommand (cmd : string) (args : list string) :
  steps offline (runCommand E cmd args).
Proof.
  unfold runCommand. destruct (run E cmd args) as [out|e].
  - apply steps_bind; [apply _| |].
    + apply steps_modify. intros w. split; [|one_event].
      intros p Hp. unfold exists_path in *. simpl.
      apply bool_decide_eq_true in Hp. apply bool_decide_eq_true.
      by apply add_paths_keeps.
    + intros _. destruct (_ =? _); [apply steps_ret | apply steps_throw]; apply _.
  - repeat (apply steps_bind; [apply _| |intros _]);
      [| |apply steps_never; apply _];
      apply steps_modify; intros w; (split; [by intros p | one_event]).
Qed.

Lemma offline_mkdir_p (p : string) : steps offline (mkdir_p p).
Proof.
  unfold mkdir_p. apply steps_bind; [apply _|apply steps_gets; apply _|].
  intros [[|d]|]; [apply steps_ret|apply steps_throw|]; try apply _.
  apply steps_modify. intros w. split; [|by exists []; rewrite app_nil_r].
  intros q Hq. by apply (exists_path_insert q p Dir (files w)).
Qed.

Lemma offline_writeFile (p : string) (d : file_data) :
  steps offline (writeFile p d).
Proof.
  assert (Hmod : steps offline
            (modify (fun w => emit (EvWriteFile p) (set_files (insert p (File d)) w)))).
  { apply steps_modify. intros w. split; [|one_event].
    intros q Hq. by apply (exists_path_insert q p (File d) (files w)). }
  unfold writeFile. apply steps_bind; [apply _|apply steps_gets; apply _|].
  intros [[|d']|]; [apply steps_throw; apply _|exact Hmod|exact Hmod].
Qed.

Ltac offline_go :=
  repeat first
    [ progress intros
    | apply offline_log | apply offline_runCommand
    | apply offline_mkdir_p | apply offline_writeFile
    | apply steps_ret | apply steps_throw | apply steps_process_exit
    | apply steps_gets
    | apply steps_bind | apply steps_try_catch | apply steps_for_of
    | match goal with
      | |- PreOrder _ => typeclasses eauto
      | |- steps _ (match ?x with _ => _ end) => destruct x
      end ].

Lemma offline_installPiper : steps offline (installPiper E).
Proof. unfold installPiper. offline_go. Qed.

Lemma offline_writeVoiceConfig (m : VoiceModel) :
  steps offline (writeVoiceConfig E m).
Proof. unfold writeVoiceConfig. offline_go. Qed.

Lemma installPython_present (w : world) :
  exists_path (pythonExe E) w = true → installPython E w = (Ok tt, w).
Proof.
  intros H. unfold installPython, fileExists, gets, bind. by rewrite H.
Qed.

Lemma downloadVoice_present (m : VoiceModel) (w : world) :
  exists_path (onnxPath m) w = true → exists_path (jsonPath m) w = true →
  downloadVoice E m w = (Ok tt, w).
Proof.
  intros Ho Hj. unfold downloadVoice, fileExists, gets, ret, bind.
  fold (onnxPath m) (jsonPath m). rewrite Ho. simpl. by rewrite Hj.
Qed.

Lemma download_pass_present (ms : list VoiceModel) (w : world) :
  (∀ m, m ∈ ms →
     exists_path (onnxPath m) w = true ∧ exists_path (jsonPath m) w = true) →
  for_of ms (downloadVoice E) w = (Ok tt, w).
Proof.
  induction ms as [|m ms IH]; intros Hall; simpl; [done|].
  destruct (Hall m) as [Ho Hj]; [by apply elem_of_cons; left|].
  unfold bind. rewrite (downloadVoice_present m w Ho Hj).
  apply IH. intros m' Hin. apply Hall. by apply elem_of_cons; right.
Qed.

Lemma offline_runtime_stages (w : world) :
  exists_path (pythonExe E) w = true →
  offline w (snd (runtime_stages E w)).
Proof.
  intros Hpy. unfold runtime_stages. unfold bind at 1.
  rewrite (installPython_present w Hpy).
  assert (H : steps offline (installPiper E >> mkdir_p MODELS_DIR))
    by (apply steps_bind; [apply _|apply offline_installPiper|intros; apply offline_mkdir_p]).
  apply H.
Qed.

Lemma offline_voice_stages (w : world) :
  (∀ m, m ∈ VOICE_MODELS E →
     exists_path (onnxPath m) w = true ∧ exists_path (jsonPath m) w = true) →
  offline w (snd (voice_stages E w)).
Proof.
  intros Hall. unfold voice_stages. unfold bind at 1.
  rewrite (download_pass_present _ w Hall).
  assert (H : steps offline
                (mkdir_p "tts_configs" >>
                 for_of (VOICE_MODELS E) (writeVoiceConfig E) >>
                 log "Piper Python setup complete.")).
  { offline_go. apply offline_writeVoiceConfig. }
  apply H.
Qed.

Lemma quiet_ensure_present (w : world) :
  exists_path modelDir w = true →
  quiet is_fetch w (snd (ensureVoskModelDownloaded E w)).
Proof.
  intros Hdir. destruct (ensure_present E w Hdir) as [-> _].
  by apply (quiet_model_present_block E is_fetch).
Qed.

End Offline.

(** X20: starting the server again on a provisioned host fetches nothing.
    With the portable runtime, both files of every voice of the catalog and
    the folder of the recognition model in place, [setupPiper] sends no
    request, extracts no archive and deletes no file, whether the programs
    it spawns succeed, fail or cannot be started. *)
Theorem X20_restart_on_provisioned_host_fetches_nothing
    (E : Env) (w : world) :
  exists_path (pythonExe E) w = true →
  (∀ m, m ∈ VOICE_MODELS E →
     exists_path (onnxPath m) w = true ∧ exists_path (jsonPath m) w = true) →
  exists_path modelDir w = true →
  quiet is_fetch w (snd (setupPiper E w)).
Proof.
  intros Hpy Hvoices Hdir.
  assert (Hcatch : ∀ e, steps (quiet is_fetch)
            (log ("Error setting up Piper TTS: " +:+ message e)
             >> process_exit 1 : M world unit)).
  { intros e. apply steps_bind; [apply _| |intros; apply steps_process_exit; apply _].
    by apply quiet_log. }
  unfold setupPiper, try_catch. unfold bind at 1.
  pose proof (offline_runtime_stages E w Hpy) as [Hg1 Hq1].
  destruct (runtime_stages E w) as [[[]|e|c|] w1]; simpl in *; try done;
    [|etrans; [exact Hq1 | apply Hcatch]].
  unfold bind at 1.
  assert (Hvoices1 : ∀ m, m ∈ VOICE_MODELS E →
            exists_path (onnxPath m) w1 = true ∧ exists_path (jsonPath m) w1 = true).
  { intros m Hm. destruct (Hvoices m Hm). split; by apply Hg1. }
  pose proof (offline_voice_stages E w1 Hvoices1) as [Hg2 Hq2].
  destruct (voice_stages E w1) as [[[]|e|c|] w2]; simpl in *;
    try (by etrans);
    [|etrans; [exact Hq1|]; etrans; [exact Hq2 | apply Hcatch]].
  pose proof (quiet_ensure_present E w2 (Hg2 _ (Hg1 _ Hdir))) as Hq3.
  destruct (ensureVoskModelDownloaded E w2) as [[[]|e|c|] w3]; simpl in *;
    try (by etrans; [exact Hq1|]; etrans).
  etrans; [exact Hq1|]. etrans; [exact Hq2|]. etrans; [exact Hq3 | apply Hcatch].
Qed.

Lemma X20_restart_witness :
  quiet is_fetch installed_world (snd (setupPiper (demo_env 0 []) installed_world)).
Proof.
  apply (X20_restart_on_provisioned_host_fetches_nothing (demo_env 0 [])).
  - vm_compute. reflexivity.
  - intros m Hm.
    repeat (apply elem_of_cons in Hm as [-> | Hm]);
      [split; vm_compute; reflexivity .. | by apply elem_of_nil in Hm].
  - vm_compute. reflexivity.
Defined.

(** X21: on a platform that is neither Windows, Linux nor macOS and has no
    portable runtime yet, [setupPiper] ends the process with status 1 right
    away: two lines are logged, nothing is downloaded or spawned, and no
    file is touched. *)
Theorem X21_unsupported_platform_stops_setup (E : Env) (w : world) :
  exists_path (pythonExe E) w = false →
  platform E ≠ "win32" → platform E ≠ "linux" → platform E ≠ "darwin" →
  setupPiper E w
  = (Exit 1,
     emit (EvLog ("Error setting up Piper TTS: Unsupported platform: " +:+ platform E))
       (emit (EvLog "Portable Python not found, downloading and extracting...") w)).
Proof.
  intros Hpy Hwin Hlinux Hmac.
  apply String.eqb_neq in Hwin, Hlinux, Hmac.
  unfold setupPiper, runtime_stages, installPython, try_catch.
  unfold fileExists, log, modify, gets, throw, process_exit, ret, bind.
  rewrite Hpy. simpl. rewrite Hwin, Hlinux, Hmac. reflexivity.
Qed.

Lemma X21_unsupported_platform_witness :
  setupPiper freebsd_env empty_world
  = (Exit 1,
     emit (EvLog "Error setting up Piper TTS: Unsupported platform: freebsd")
       (emit (EvLog "Portable Python not found, downloading and extracting...")
          empty_world)).
Proof.
  apply (X21_unsupported_platform_stops_setup freebsd_env empty_world).
  - reflexivity.
  - discriminate.
  - discriminate.
  - discriminate.
Defined.

(** X22: [loadTtsConfigs] is idempotent.  It always returns normally, and a
    second call made right after the first leaves the files, the map
    [ttsConfigs] and everything else but the log as the first call left
    them. *)
Theorem X22_loadTtsConfigs_idempotent (w : world) :
  ∃ w1 w2,
    loadTtsConfigs w = (Ok tt, w1)
    ∧ loadTtsConfigs w1 = (Ok tt, w2)
    ∧ forget_trace w2 = forget_trace w1.
Proof.
  destruct (loadTtsConfigs_spec w) as (w1 & H1 & Hw1).
  destruct (loadTtsConfigs_twice w w1 w1 H1 eq_refl) as (w2 & H2 & Hw2).
  by exists w1, w2.
Qed.

(** ** The configuration loader, file by file *)

Lemma substring_0_app (s t : string) :
  substring 0 (String.length s) (s +:+ t) = s.
Proof.
  induction s as [|a s IH].
  - by destruct t.
  - rewrite append_cons. simpl. by rewrite IH.
Qed.

Lemma substring_skip_app (s t : string) (n : nat) :
  substring (String.length s) n (s +:+ t) = substring 0 n t.
Proof.
  induction s as [|a s IH]; [done|].
  rewrite append_cons. simpl. exact IH.
Qed.

Lemma substring_split (s : string) (n : nat) :
  (n ≤ String.length s)%nat →
  substring 0 n s +:+ substring n (String.length s - n) s = s.
Proof.
  revert n. induction s as [|a s IH]; intros n Hn; simpl in *.
  - by destruct n.
  - destruct n as [|n]; simpl.
    + change (String a (substring 0 (String.length s) s) = String a s).
      f_equal. pose proof (substring_0_app s "") as H.
      assert (Hs : s +:+ "" = s) by (clear; induction s as [|b s IH];
        [done | by rewrite append_cons, IH]).
      by rewrite Hs in H.
    + rewrite append_cons. f_equal. apply IH. lia.
Qed.

Lemma endsWith_app (x suffix : string) : endsWith suffix (x +:+ suffix) = true.
Proof.
  unfold endsWith. rewrite string_length_app.
  replace (String.length x + String.length suffix - String.length suffix)%nat
    with (String.length x) by lia.
  rewrite substring_skip_app.
  pose proof (substring_split suffix 0 ltac:(lia)) as H.
  rewrite Nat.sub_0_r in H.
  assert (H0 : substring 0 0 suffix = "") by (by destruct suffix).
  rewrite H0 in H. change ("" +:+ ?s) with s in H. rewrite H.
  apply andb_true_intro. split; [apply Nat.leb_le; lia | apply String.eqb_refl].
Qed.

Lemma slice_off_end_app (x suffix : string) :
  slice_off_end (String.length suffix) (x +:+ suffix) = x.
Proof.
  unfold slice_off_end. rewrite string_length_app.
  replace (String.length x + String.length suffix - String.length suffix)%nat
    with (String.length x) by lia.
  apply substring_0_app.
Qed.

Lemma endsWith_inv (suffix s : string) :
  endsWith suffix s = true →
  s = slice_off_end (String.length suffix) s +:+ suffix.
Proof.
  unfold endsWith, slice_off_end. intros H.
  apply andb_prop in H as [Hle Heq].
  apply Nat.leb_le in Hle. apply String.eqb_eq in Heq.
  pose proof (substring_split s (String.length s - String.length suffix)
                ltac:(lia)) as Hs.
  replace (String.length s - (String.length s - String.length suffix))%nat
    with (String.length suffix) in Hs by lia.
  by rewrite Heq in Hs.
Qed.

Lemma strip_prefix_app (pre p : string) : strip_prefix pre (pre +:+ p) = Some p.
Proof.
  induction pre as [|a pre IH]; [by destruct p|].
  rewrite append_cons. simpl. by rewrite Ascii.eqb_refl.
Qed.

Lemma entries_of_has (dir f : string) (n : node) (fs : gmap string node) :
  fs !! path_join dir f = Some n → has_slash f = false →
  f ∈ entries_of dir fs.
Proof.
  intros Hf Hslash. unfold entries_of. apply list_elem_of_omap.
  exists (path_join dir f, n). split; [by apply elem_of_map_to_list|].
  unfold path_join. rewrite <- append_assoc, strip_prefix_app. by rewrite Hslash.
Qed.

Lemma load_ops_has (F : gmap string node) (l : list string) (f : string)
    (j : json_value) :
  (∀ g, g ∈ l → endsWith ".json" g = true →
        ∃ d, F !! path_join "tts_configs" g = Some (File d)) →
  f ∈ l → endsWith ".json" f = true →
  F !! path_join "tts_configs" f = Some (File (JsonDoc j)) →
  (slice_off_end 5 f, j) ∈ load_ops F l.
Proof.
  intros Hfiles Hin Hjson Hf.
  induction l as [|g l IH]; [by apply elem_of_nil in Hin|].
  assert (Hl : ∀ g', g' ∈ l → endsWith ".json" g' = true →
                ∃ d, F !! path_join "tts_configs" g' = Some (File d))
    by (intros g' Hg'; apply Hfiles; by apply elem_of_cons; right).
  simpl. apply elem_of_cons in Hin as [<- | Hin].
  - rewrite Hjson, Hf. by apply elem_of_cons; left.
  - destruct (endsWith ".json" g) eqn:Hg; [|by apply IH].
    destruct (Hfiles g) as [d Hd]; [by apply elem_of_cons; left | done |].
    rewrite Hd. destruct d as [|j']; [by apply IH|].
    apply elem_of_cons; right. by apply IH.
Qed.

Lemma load_ops_from (F : gmap string node) (l : list string) (k : string)
    (v : json_value) :
  (k, v) ∈ load_ops F l →
  ∃ f, endsWith ".json" f = true ∧ k = slice_off_end 5 f
       ∧ F !! path_join "tts_configs" f = Some (File (JsonDoc v)).
Proof.
  induction l as [|g l IH]; simpl; [by intros H%elem_of_nil|].
  destruct (endsWith ".json" g) eqn:Hg; [|exact IH].
  destruct (F !! path_join "tts_configs" g) as [[|[|j]]|] eqn:Hd;
    try (by intros H%elem_of_nil); [exact IH|].
  intros [H | H]%elem_of_cons; [|by apply IH].
  injection H as -> ->. by exists g.
Qed.

Lemma apply_ops_lookup (ops : list (string * json_value))
    (T : gmap string json_value) (k : string) (v : json_value) :
  (k, v) ∈ ops → (∀ v', (k, v') ∈ ops → v' = v) →
  apply_ops ops T !! k = Some v.
Proof.
  intros Hin Hall. rewrite apply_ops_union. apply lookup_union_Some_l.
  apply elem_of_list_to_map_1'.
  - intros y Hy. symmetry. apply Hall. by apply elem_of_reverse.
  - by apply elem_of_reverse.
Qed.

(** X23: a configuration file that is not valid JSON does not keep the
    others from loading.  When [tts_configs] is a folder in which every
    entry named [*.json] is a file, each file [<x>.json] that holds a JSON
    document ends up in [ttsConfigs] under the key [<x>], whatever the
    other files hold. *)
Theorem X23_unparsable_config_is_skipped
    (w : world) (x : string) (j : json_value) :
  files w !! "tts_configs" = Some Dir →
  (∀ f, f ∈ entries_of "tts_configs" (files w) → endsWith ".json" f = true →
        ∃ d, files w !! path_join "tts_configs" f = Some (File d)) →
  has_slash x = false →
  files w !! path_join "tts_configs" (x +:+ ".json") = Some (File (JsonDoc j)) →
  ttsConfigs (snd (loadTtsConfigs w)) !! x = Some j.
Proof.
  intros Hdir Hfiles Hslash Hx.
  destruct (loadTtsConfigs_spec w) as (w' & Hrun & Hw').
  rewrite Hrun. simpl.
  assert (Ht : ttsConfigs w' = ttsConfigs (loaded w))
    by (apply (f_equal ttsConfigs) in Hw'; exact Hw').
  rewrite Ht. unfold loaded, with_config_dir. rewrite Hdir. simpl.
  assert (Hs : has_slash (x +:+ ".json") = false)
    by (rewrite has_slash_app, Hslash; done).
  apply apply_ops_lookup.
  - rewrite <- (slice_off_end_app x ".json") at 1.
    apply load_ops_has; [exact Hfiles | | apply endsWith_app | exact Hx].
    by apply (entries_of_has _ _ (File (JsonDoc j))).
  - intros v' Hv'. apply load_ops_from in Hv' as (f & Hjson & Hk & Hf).
    apply endsWith_inv in Hjson. simpl in Hjson. rewrite <- Hk in Hjson.
    subst f. rewrite Hx in Hf. by injection Hf.
Qed.

Lemma X23_unparsable_config_witness :
  ttsConfigs (snd (loadTtsConfigs mixed_configs_world)) !! "en_US-lessac-medium"
  = Some (JConfig lessac_config).
Proof.
  apply (X23_unparsable_config_is_skipped mixed_configs_world
           "en_US-lessac-medium" (JConfig lessac_config)).
  - reflexivity.
  - intros f Hf Hjson.
    vm_compute in Hf.
    repeat (apply elem_of_cons in Hf as [-> | Hf]);
      [eexists; vm_compute; reflexivity .. | by apply elem_of_nil in Hf].
  - reflexivity.
  - reflexivity.
Defined.
